(** * SearchValidationPage: the search validator of the automated search
      testing suite (page-objects/SearchValidationPage.js)

    The class drives a Playwright page.  Every call into the page is an
    interaction with the browser whose answer the class does not control,
    so the methods are embedded as computations over an arbitrary browser
    (a state type and a function answering each call), which record the
    calls they make and their answers.  Console output is not modelled, and
    captureEvidence (a screenshot named after the clock) is left out together
    with the screenshot options it alone uses. *)

From Stdlib Require Import ZArith QArith Qround Ascii String List Lia Bool.
From stdpp Require Import base option list strings gmap fin_maps.
Import ListNotations.

Local Open Scope string_scope.
Local Open Scope list_scope.

(** ** JavaScript strings

    A string is a sequence of code units; the embedding carries the code
    units U+0000 to U+00FF (one [ascii] each), a range closed under
    [toLowerCase] and [trim]. *)
Module JsString.

(** The code unit of the double quote, which the selector literals of the
    class contain. *)
Definition dq : string := String (ascii_of_nat 34) EmptyString.

Definition is_upper (n : N) : bool :=
  ((65 <=? n) && (n <=? 90) || (192 <=? n) && (n <=? 222) && negb (n =? 215))%N.

(** Lower-case mapping of one code unit: A-Z, and the capital letters of
    the Latin-1 supplement (U+00C0 to U+00DE without the multiplication
    sign U+00D7), are moved up by 32. *)
Definition lower_unit (c : ascii) : ascii :=
  let n := N_of_ascii c in
  if is_upper n then ascii_of_N (n + 32) else c.

(** String.prototype.toLowerCase *)
Fixpoint toLowerCase (s : string) : string :=
  match s with
  | EmptyString => EmptyString
  | String c rest => String (lower_unit c) (toLowerCase rest)
  end.

(** [startsWith s p]: [p] is a prefix of [s]. *)
Fixpoint startsWith (s p : string) {struct p} : bool :=
  match p, s with
  | EmptyString, _ => true
  | String _ _, EmptyString => false
  | String b p', String a s' => if Ascii.eqb a b then startsWith s' p' else false
  end.

(** String.prototype.includes: [sub] occurs in [s] at some position. *)
Fixpoint includes (s sub : string) : bool :=
  startsWith s sub ||
  match s with
  | EmptyString => false
  | String _ s' => includes s' sub
  end.

(** White space and line terminators removed by [trim], among the code
    units carried: TAB, LF, VT, FF, CR, SPACE and NO-BREAK SPACE. *)
Definition is_space (c : ascii) : bool :=
  let n := N_of_ascii c in
  ((9 <=? n) && (n <=? 13) || (n =? 32) || (n =? 160))%N.

Fixpoint trimStart (s : string) : string :=
  match s with
  | EmptyString => EmptyString
  | String c rest => if is_space c then trimStart rest else s
  end.

Fixpoint trimEnd (s : string) : string :=
  match s with
  | EmptyString => EmptyString
  | String c rest =>
      match trimEnd rest with
      | EmptyString => if is_space c then EmptyString else String c EmptyString
      | t => String c t
      end
  end.

(** String.prototype.trim *)
Definition trim (s : string) : string := trimEnd (trimStart s).

(** [occurs_in sub s]: the specification of substring containment. *)
Definition occurs_in (sub s : string) : Prop :=
  exists pre post, s = pre +:+ sub +:+ post.

End JsString.
Import JsString.

(** ** JavaScript values used by the class *)

(** A thrown error object: the name of its class and its message. *)
Record JsError := mkError { err_name : string; message : string }.

(** [new Error(msg)] *)
Definition new_Error (msg : string) : JsError := mkError "Error" msg.

(** Completion of an awaited call: a value or a thrown error. *)
Inductive Outcome (A : Type) : Type :=
| Ok (a : A)
| Thrown (e : JsError).
Arguments Ok {A} a.
Arguments Thrown {A} e.

(** A plain object used as a map from property name to boolean
    ([validationResults.keywordMatches]).  The assignment [o[k] = v] goes
    through the prototype chain: for the name [__proto__] it reaches the
    accessor of Object.prototype, whose setter ignores a value that is
    neither an object nor null, so no own property is created; any other
    name creates or overwrites the own property. *)
Definition js_set (o : gmap string bool) (k : string) (v : bool) : gmap string bool :=
  if decide (k = "__proto__") then o else <[k := v]> o.

(** Object.values(o): the values of the own properties. *)
Definition Object_values (o : gmap string bool) : list bool :=
  (map_to_list o).*2.

(** Math.ceil *)
Definition Math_ceil (q : Q) : Z := Qceiling q.

(** ** The Playwright page, as the class uses it *)

(** Locators are lazy descriptions of elements; building one performs no
    call. *)
Inductive Locator : Type :=
| locator (selector : string)        (* page.locator(selector) *)
| first (l : Locator)                (* l.first() *)
| nth (l : Locator) (i : nat).       (* the i-th entry of the array of l.all() *)

Record GotoOptions := { goto_waitUntil : string; goto_timeout : N }.
Record WaitOptions := { wait_timeout : N; wait_state : option string }.

(** The calls into the page made by the class. *)
Inductive Call : Type :=
| CGoto (url : string) (options : option GotoOptions)
| CWaitForTimeout (ms : N)
| CWaitForSelector (selector : string) (options : WaitOptions)
| CUrl
| CIsVisible (l : Locator) (timeout : N)
| CClick (l : Locator)
| CClear (l : Locator)
| CFill (l : Locator) (value : string)
| CPress (l : Locator) (key : string)
| CAll (l : Locator)
| CTextContent (l : Locator)
| CPageTextContent (selector : string).

(** The type of the value a call resolves to.  [CAll] resolves to the
    length of the array ([nth l 0 .. nth l (n-1)] are its entries);
    textContent resolves to a string or to null. *)
Definition Res (c : Call) : Type :=
  match c with
  | CUrl => string
  | CIsVisible _ _ => bool
  | CAll _ => nat
  | CTextContent _ | CPageTextContent _ => option string
  | _ => unit
  end.

(** Values as they are recorded in a trace. *)
Inductive Value : Type :=
| VUndefined
| VBool (b : bool)
| VString (s : string)
| VNumber (n : nat)
| VNull.

Definition to_value (c : Call) : Res c -> Value :=
  match c return Res c -> Value with
  | CUrl => VString
  | CIsVisible _ _ => VBool
  | CAll _ => VNumber
  | CTextContent _ | CPageTextContent _ =>
      fun o => match o with Some s => VString s | None => VNull end
  | _ => fun _ => VUndefined
  end.

Definition outcome_value (c : Call) (o : Outcome (Res c)) : Outcome Value :=
  match o with
  | Ok a => Ok (to_value c a)
  | Thrown e => Thrown e
  end.

(** One interaction: the call and how it completed. *)
Definition Event : Type := Call * Outcome Value.

(** The result of running a method: how it completed, the locals that
    outlive a throw, the browser afterwards and the interactions made. *)
Record Run (S W A : Type) : Type := mkRun {
  outcome : Outcome A;
  locals : S;
  world : W;
  trace : list Event
}.
Arguments mkRun {S W A} outcome locals world trace.
Arguments outcome {S W A} r.
Arguments locals {S W A} r.
Arguments world {S W A} r.
Arguments trace {S W A} r.

(** Loop control of a [for] body. *)
Inductive LoopCtl : Type := Next | Break.

(** The constructor's tables. *)
Record Locators := {
  searchBox : string;
  searchButton : string;
  resultContainers : string;
  resultHeaders : string;
  resultDescriptions : string;
  loadingIndicator : string
}.

Record Config := { waitTimeout : N; navigationTimeout : N }.

Definition locators : Locators := Eval cbv in {|
  searchBox :=
    "textarea[name=" +:+ dq +:+ "q" +:+ dq +:+ "]:not([aria-hidden=" +:+ dq +:+ "true" +:+ dq
    +:+ "]), input[name=" +:+ dq +:+ "q" +:+ dq +:+ "]:not([aria-hidden=" +:+ dq +:+ "true" +:+ dq +:+ "])";
  searchButton :=
    "input[type=" +:+ dq +:+ "submit" +:+ dq +:+ "], button[type=" +:+ dq +:+ "submit" +:+ dq +:+ "]";
  resultContainers := "#search, #rso, main";
  resultHeaders := "h3, .LC20lb, .yuRUbf h3, [data-ved] h3";
  resultDescriptions := ".VwiC3b, [data-sncf], .s, .lEBKkf, .st";
  loadingIndicator := "[data-ved], .g, .tF2Cxc"
|}.

Definition config : Config := {| waitTimeout := 10000; navigationTimeout := 30000 |}.

(** The selector [textarea[name="q"]] written out in executeSearch. *)
Definition textarea_q : string :=
  Eval cbv in "textarea[name=" +:+ dq +:+ "q" +:+ dq +:+ "]".

(** The selector of the "All" tab in _ensureMainSearchPage. *)
Definition allTab_selector : string :=
  Eval cbv in "a[data-ved]:has-text(" +:+ dq +:+ "All" +:+ dq +:+ "), a:has-text(" +:+ dq +:+ "All" +:+ dq +:+ ")".

(** consentSelectors of _handleConsentDialogs, in declared order. *)
Definition consentSelectors : list string := Eval cbv in
  [ "button:has-text(" +:+ dq +:+ "Accept all" +:+ dq +:+ ")";
    "button:has-text(" +:+ dq +:+ "I agree" +:+ dq +:+ ")";
    "button:has-text(" +:+ dq +:+ "Accept" +:+ dq +:+ ")";
    "[id*=" +:+ dq +:+ "accept" +:+ dq +:+ "], [class*=" +:+ dq +:+ "accept" +:+ dq +:+ "]" ].

Record ValidationResult := {
  totalResults : nat;
  keywordMatches : gmap string bool;
  isValid : bool
}.

Record ResultEntry := {
  position : nat;
  title : string;
  description : string
}.

(** ** The class, over an arbitrary browser *)
Section SearchValidationPage.

(** The state of the browser and the page object answering the calls. *)
Context {World : Type}.
Variable pageInstance : forall c : Call, World -> Outcome (Res c) * World.

(** Texts produced outside the class: the message of a failed
    [expect(received).toBeGreaterThanOrEqual(expected)] and the engine's
    message for calling a method on null. *)
Variable toBeGreaterThanOrEqual_message : nat -> Z -> string.
Variable null_property_message : string.

(** A method body: it starts from its locals and the browser state. *)
Definition M (S A : Type) : Type := S -> World -> Run S World A.

Definition ret {S A} (a : A) : M S A :=
  fun s w => mkRun (Ok a) s w [].

Definition throw {S A} (e : JsError) : M S A :=
  fun s w => mkRun (Thrown e) s w [].

Definition bind {S A B} (m : M S A) (f : A -> M S B) : M S B :=
  fun s w =>
    match m s w with
    | mkRun (Ok a) s1 w1 tr1 =>
        match f a s1 w1 with
        | mkRun o s2 w2 tr2 => mkRun o s2 w2 (tr1 ++ tr2)
        end
    | mkRun (Thrown e) s1 w1 tr1 => mkRun (Thrown e) s1 w1 tr1
    end.

(** [await] of a call into the page. *)
Definition call {S} (c : Call) : M S (Res c) :=
  fun s w =>
    let (o, w') := pageInstance c w in
    mkRun o s w' [(c, outcome_value c o)].

(** [try { m } catch (error) { h error }] *)
Definition try_catch {S A} (m : M S A) (h : JsError -> M S A) : M S A :=
  fun s w =>
    match m s w with
    | mkRun (Ok a) s1 w1 tr1 => mkRun (Ok a) s1 w1 tr1
    | mkRun (Thrown e) s1 w1 tr1 =>
        match h e s1 w1 with
        | mkRun o s2 w2 tr2 => mkRun o s2 w2 (tr1 ++ tr2)
        end
    end.

Definition get_locals {S} : M S S :=
  fun s w => mkRun (Ok s) s w [].

(** A method with locals of its own, initialised to [init]. *)
Definition with_locals {S L A} (init : L) (m : M L A) : M S A :=
  fun s w =>
    match m init w with
    | mkRun o _ w1 tr1 => mkRun o s w1 tr1
    end.

Notation "x <- m ;; k" := (bind m (fun x => k))
  (at level 100, m at next level, k at level 200, right associativity).
Notation "m ;;; k" := (bind m (fun _ => k))
  (at level 100, k at level 200, right associativity).

(** [for (const x of xs) { body x }] with [break] and [continue]. *)
Fixpoint for_of {S A} (xs : list A) (body : A -> M S LoopCtl) : M S unit :=
  match xs with
  | [] => ret tt
  | x :: rest =>
      c <- body x ;;
      match c with
      | Next => for_of rest body
      | Break => ret tt
      end
  end.

(** *** _handleConsentDialogs *)
Definition consent_body {S} (selector : string) : M S LoopCtl :=
  try_catch
    (let element := locator selector in
     visible <- call (CIsVisible element 2000) ;;
     if visible then
       call (CClick element) ;;;
       call (CWaitForTimeout 1000) ;;;
       ret Break
     else ret Next)
    (fun error => ret Next).

Definition _handleConsentDialogs {S} : M S unit :=
  for_of consentSelectors consent_body.

(** *** _ensureMainSearchPage *)
Definition _ensureMainSearchPage {S} : M S unit :=
  try_catch
    (currentUrl <- call CUrl ;;
     (if includes currentUrl "tbm=" then
        call (CGoto "https://www.google.com" None) ;;;
        call (CWaitForTimeout 1000)
      else ret tt) ;;;
     let allTab := locator allTab_selector in
     visible <- call (CIsVisible allTab 2000) ;;
     if visible then
       call (CClick allTab) ;;;
       call (CWaitForTimeout 1000)
     else ret tt)
    (fun error => ret tt).

(** *** navigateToSearchEngine *)
Definition navigateToSearchEngine {S} (searchEngineUrl : string) : M S unit :=
  try_catch
    (call (CGoto searchEngineUrl
             (Some {| goto_waitUntil := "domcontentloaded";
                      goto_timeout := navigationTimeout config |})) ;;;
     call (CWaitForTimeout 2000) ;;;
     _handleConsentDialogs ;;;
     _ensureMainSearchPage ;;;
     ret tt)
    (fun error => throw (new_Error ("Navigation failed: " +:+ message error))).

(** *** executeSearch *)
Definition executeSearch {S} (searchTerm : string) : M S unit :=
  try_catch
    (call (CWaitForSelector (searchBox locators)
             {| wait_timeout := 10000; wait_state := Some "visible" |}) ;;;
     let searchInput := first (locator textarea_q) in
     currentUrl <- call CUrl ;;
     (if includes currentUrl "tbm=isch" then
        call (CGoto "https://www.google.com" None) ;;;
        call (CWaitForSelector textarea_q
                {| wait_timeout := 5000; wait_state := None |})
      else ret tt) ;;;
     call (CClick searchInput) ;;;
     call (CClear searchInput) ;;;
     call (CFill searchInput searchTerm) ;;;
     call (CPress searchInput "Enter") ;;;
     call (CWaitForSelector (resultContainers locators)
             {| wait_timeout := waitTimeout config; wait_state := None |}) ;;;
     ret tt)
    (fun error => throw (new_Error ("Search execution failed: " +:+ message error))).

(** *** validateSearchResults *)

(** [expect(received).toBeGreaterThanOrEqual(expected)] *)
Definition expect_toBeGreaterThanOrEqual {S} (received : nat) (expected : Z) : M S unit :=
  if (expected <=? Z.of_nat received)%Z then ret tt
  else throw (new_Error (toBeGreaterThanOrEqual_message received expected)).

(** [pageContent.toLowerCase()], where [pageContent] may be null. *)
Definition call_toLowerCase {S} (pageContent : option string) : M S string :=
  match pageContent with
  | Some s => ret (toLowerCase s)
  | None => throw (mkError "TypeError" null_property_message)
  end.

(** The body of the loop over [expectedKeywords]. *)
Definition record_keyword (contentLower : string)
    (validationResults : ValidationResult) (keyword : string) : ValidationResult :=
  let keywordLower := toLowerCase keyword in
  let isPresent := includes contentLower keywordLower in
  {| totalResults := totalResults validationResults;
     keywordMatches := js_set (keywordMatches validationResults) keyword isPresent;
     isValid := isValid validationResults |}.

Definition validateSearchResults {S}
    (expectedKeywords : list string) (minResultCount_arg : option Z)
  : M S ValidationResult :=
  let minResultCount := default 3%Z minResultCount_arg in
  let validationResults :=
    {| totalResults := 0; keywordMatches := ∅; isValid := false |} in
  try_catch
    (resultElements_length <- call (CAll (locator (resultHeaders locators))) ;;
     let validationResults :=
       {| totalResults := resultElements_length;
          keywordMatches := keywordMatches validationResults;
          isValid := isValid validationResults |} in
     expect_toBeGreaterThanOrEqual (totalResults validationResults) minResultCount ;;;
     pageContent <- call (CPageTextContent "body") ;;
     contentLower <- call_toLowerCase pageContent ;;
     let validationResults :=
       fold_left (record_keyword contentLower) expectedKeywords validationResults in
     let keywordMatchCount :=
       length (filter (fun m => m = true)
                 (Object_values (keywordMatches validationResults))) in
     let validationResults :=
       {| totalResults := totalResults validationResults;
          keywordMatches := keywordMatches validationResults;
          isValid :=
            (Math_ceil (inject_Z (Z.of_nat (length expectedKeywords)) / 2)
             <=? Z.of_nat keywordMatchCount)%Z |} in
     ret validationResults)
    (fun error => throw (new_Error ("Result validation failed: " +:+ message error))).

(** *** extractResultData *)

(** [resultData.push(entry)] on the local array. *)
Definition push (entry : ResultEntry) : M (list ResultEntry) unit :=
  fun s w => mkRun (Ok tt) (s ++ [entry]) w [].

(** [text || ''] *)
Definition or_empty (text : option string) : string := default EmptyString text.

Definition extract_body (resultTitles resultDescriptions : Locator)
    (resultDescriptions_length : nat) (i : nat) : M (list ResultEntry) LoopCtl :=
  titleText <- call (CTextContent (nth resultTitles i)) ;;
  let titleText := or_empty titleText in
  descriptionText <-
    (if (i <? resultDescriptions_length)%nat then
       text <- call (CTextContent (nth resultDescriptions i)) ;;
       ret (or_empty text)
     else ret EmptyString) ;;
  push {| position := i + 1;
          title := trim titleText;
          description := trim descriptionText |} ;;;
  ret Next.

Definition extractResultData {S} : M S (list ResultEntry) :=
  with_locals []
    (try_catch
       (let resultTitles := locator (resultHeaders locators) in
        let resultDescriptions := locator (resultDescriptions locators) in
        resultTitles_length <- call (CAll resultTitles) ;;
        resultDescriptions_length <- call (CAll resultDescriptions) ;;
        for_of (seq 0 (Nat.min resultTitles_length 10))
          (extract_body resultTitles resultDescriptions resultDescriptions_length) ;;;
        get_locals)
       (fun error => get_locals)).

End SearchValidationPage.

(** ** A small browser for the examples

    A page is a list of elements in document order.  Each element lists the
    simple selectors it matches; a selector list (alternatives separated by
    commas) matches an element that matches one of its alternatives. *)
Module Browser.

Record Element := {
  el_matches : list string;
  el_visible : bool;
  el_text : option string;
  el_value : string
}.

Record State := {
  url : string;
  offline : bool;
  body : option string;
  elements : list Element
}.

(** The alternatives of a selector list, in declared order. *)
Fixpoint split_commas (s : string) (cur : string) : list string :=
  match s with
  | EmptyString => [cur]
  | String c rest =>
      if Ascii.eqb c ","%char then cur :: split_commas rest EmptyString
      else split_commas rest (cur +:+ String c EmptyString)
  end.

Definition alternatives (selector : string) : list string :=
  map trim (split_commas selector EmptyString).

Definition matches_simple (alt : string) (e : Element) : bool :=
  existsb (String.eqb alt) (el_matches e).

Definition matches (selector : string) (e : Element) : bool :=
  existsb (fun alt => matches_simple alt e) (alternatives selector).

(** Indices, in document order, of the elements a selector list matches. *)
Fixpoint query_from (selector : string) (i : nat) (es : list Element) : list nat :=
  match es with
  | [] => []
  | e :: rest =>
      if matches selector e then i :: query_from selector (S i) rest
      else query_from selector (S i) rest
  end.

Fixpoint resolve (st : State) (l : Locator) : list nat :=
  match l with
  | locator selector => query_from selector 0 (elements st)
  | first l' => take 1 (resolve st l')
  | nth l' i => take 1 (drop i (resolve st l'))
  end.

Definition timeout_error : JsError := mkError "TimeoutError" "Timeout exceeded.".
Definition strict_error : JsError := mkError "Error" "strict mode violation".
Definition network_error : JsError := mkError "Error" "net::ERR_INTERNET_DISCONNECTED".

(** The single element an action of a locator targets. *)
Definition target (st : State) (l : Locator) : Outcome (nat * Element) :=
  match resolve st l with
  | [] => Thrown timeout_error
  | [i] =>
      match elements st !! i with
      | Some e => Ok (i, e)
      | None => Thrown timeout_error
      end
  | _ => Thrown strict_error
  end.

Definition set_value (st : State) (i : nat) (v : string) : State :=
  {| url := url st; offline := offline st; body := body st;
     elements :=
       alter (fun e => {| el_matches := el_matches e; el_visible := el_visible e;
                          el_text := el_text e; el_value := v |}) i (elements st) |}.

(** An action that needs a visible target. *)
Definition act (st : State) (l : Locator) (k : nat -> State) : Outcome unit * State :=
  match target st l with
  | Ok (i, e) => if el_visible e then (Ok tt, k i) else (Thrown timeout_error, st)
  | Thrown err => (Thrown err, st)
  end.

Definition page (c : Call) : State -> Outcome (Res c) * State :=
  match c return State -> Outcome (Res c) * State with
  | CGoto u _ => fun st =>
      if offline st then (Thrown network_error, st)
      else (Ok tt, {| url := u; offline := offline st; body := body st;
                      elements := elements st |})
  | CWaitForTimeout _ => fun st => (Ok tt, st)
  | CWaitForSelector selector _ => fun st =>
      match query_from selector 0 (elements st) with
      | i :: _ =>
          match elements st !! i with
          | Some e => if el_visible e then (Ok tt, st) else (Thrown timeout_error, st)
          | None => (Thrown timeout_error, st)
          end
      | [] => (Thrown timeout_error, st)
      end
  | CUrl => fun st => (Ok (url st), st)
  | CIsVisible l _ => fun st =>
      match resolve st l with
      | [] => (Ok false, st)
      | _ =>
          match target st l with
          | Ok (_, e) => (Ok (el_visible e), st)
          | Thrown err => (Thrown err, st)
          end
      end
  | CClick l => fun st => act st l (fun _ => st)
  | CClear l => fun st => act st l (fun i => set_value st i EmptyString)
  | CFill l v => fun st => act st l (fun i => set_value st i v)
  | CPress l _ => fun st => act st l (fun _ => st)
  | CAll l => fun st => (Ok (length (resolve st l)), st)
  | CTextContent l => fun st =>
      match target st l with
      | Ok (_, e) => (Ok (el_text e), st)
      | Thrown err => (Thrown err, st)
      end
  | CPageTextContent _ => fun st => (Ok (body st), st)
  end.

(** The texts the examples use for the messages produced outside the
    class. *)
Definition expect_message (received : nat) (expected : Z) : string :=
  "expect(received).toBeGreaterThanOrEqual(expected)".
Definition null_message : string :=
  "Cannot read properties of null (reading 'toLowerCase')".

Definition heading (text : string) : Element :=
  {| el_matches := ["h3"]; el_visible := true; el_text := Some text;
     el_value := EmptyString |}.

Definition snippet (text : string) : Element :=
  {| el_matches := [".VwiC3b"]; el_visible := true; el_text := Some text;
     el_value := EmptyString |}.

End Browser.

(** ** Specification-side definitions *)

(** The number of keywords recorded as matched: the own properties whose
    value is [true]. *)
Definition matched_count (o : gmap string bool) : nat :=
  size (filter (fun kv : string * bool => kv.2 = true) o).

(** The properties recorded by the loop over the keywords. *)
Definition record_all (contentLower : string) (keywords : list string)
    (o : gmap string bool) : gmap string bool :=
  fold_left (fun o keyword => js_set o keyword (includes contentLower (toLowerCase keyword)))
    keywords o.


(** The legal traces of consent handling over the remaining candidates:
    a candidate that is not visible, or whose probe, click or settle wait
    throws, is followed by the trace of the candidates after it; a
    candidate that is visible, clicked and settled ends the trace. *)
Inductive consent_trace : list string -> list Event -> Prop :=
| consent_none :
    consent_trace [] []
| consent_not_visible sel rest tr :
    consent_trace rest tr ->
    consent_trace (sel :: rest)
      ((CIsVisible (locator sel) 2000, Ok (VBool false)) :: tr)
| consent_probe_error sel rest e tr :
    consent_trace rest tr ->
    consent_trace (sel :: rest)
      ((CIsVisible (locator sel) 2000, Thrown e) :: tr)
| consent_click_error sel rest e tr :
    consent_trace rest tr ->
    consent_trace (sel :: rest)
      ((CIsVisible (locator sel) 2000, Ok (VBool true))
       :: (CClick (locator sel), Thrown e) :: tr)
| consent_settle_error sel rest e tr :
    consent_trace rest tr ->
    consent_trace (sel :: rest)
      ((CIsVisible (locator sel) 2000, Ok (VBool true))
       :: (CClick (locator sel), Ok VUndefined)
       :: (CWaitForTimeout 1000, Thrown e) :: tr)
| consent_dismissed sel rest :
    consent_trace (sel :: rest)
      [(CIsVisible (locator sel) 2000, Ok (VBool true));
       (CClick (locator sel), Ok VUndefined);
       (CWaitForTimeout 1000, Ok VUndefined)].


(** A straight-line script of calls run until the first throw: every call
    made so far succeeded, the calls are made in the order of the script,
    and the run ends either with the script ([None]) or with the first call
    that throws ([Some e]). *)
Inductive script_run : list Call -> list Event -> option JsError -> Prop :=
| script_done :
    script_run [] [] None
| script_ok c v cs tr res :
    script_run cs tr res ->
    script_run (c :: cs) ((c, Ok v) :: tr) res
| script_abort c e cs :
    script_run (c :: cs) [(c, Thrown e)] (Some e).

(** The element executeSearch acts on. *)
Definition searchInput : Locator := first (locator textarea_q).

(** The calls of executeSearch, in order; [isch] tells whether the URL read
    by the second call contains [tbm=isch]. *)
Definition executeSearch_script (searchTerm : string) (isch : bool) : list Call :=
  [ CWaitForSelector (searchBox locators)
      {| wait_timeout := 10000; wait_state := Some "visible" |};
    CUrl ]
  ++ (if isch then
        [ CGoto "https://www.google.com" None;
          CWaitForSelector textarea_q {| wait_timeout := 5000; wait_state := None |} ]
      else [])
  ++ [ CClick searchInput;
       CClear searchInput;
       CFill searchInput searchTerm;
       CPress searchInput "Enter";
       CWaitForSelector (resultContainers locators)
         {| wait_timeout := waitTimeout config; wait_state := None |} ].

(** The locator a call acts on, for the calls that act on an element. *)
Definition call_target (c : Call) : option Locator :=
  match c with
  | CClick l | CClear l | CFill l _ | CPress l _ => Some l
  | _ => None
  end.

(** How a method that wraps every failure completes. *)
Definition wrapped (prefix : string) (res : option JsError) : Outcome unit :=
  match res with
  | None => Ok tt
  | Some cause => Thrown (new_Error (prefix +:+ message cause))
  end.

(** The text a recorded textContent answer stands for ([text || ''] for a
    string or null). *)
Definition text_of (v : Value) : string :=
  match v with
  | VString s => s
  | _ => EmptyString
  end.

(** The reads of the extraction loop from index [i] on, and the entries
    pushed by them: below [limit], entry [i] is built from the text read
    for title [i] and, when [i] is below the number of descriptions, from
    the text read for description [i]; a read that throws ends the loop
    with the entries pushed so far. *)
Inductive extraction (titles descriptions : Locator) (n_descriptions limit : nat)
  : nat -> list Event -> list ResultEntry -> Prop :=
| extraction_end i :
    limit <= i ->
    extraction titles descriptions n_descriptions limit i [] []
| extraction_title_throws i e :
    i < limit ->
    extraction titles descriptions n_descriptions limit i
      [(CTextContent (nth titles i), Thrown e)] []
| extraction_description_throws i t e :
    i < limit -> i < n_descriptions ->
    extraction titles descriptions n_descriptions limit i
      [(CTextContent (nth titles i), Ok t);
       (CTextContent (nth descriptions i), Thrown e)] []
| extraction_paired i t d tr l :
    i < limit -> i < n_descriptions ->
    extraction titles descriptions n_descriptions limit (S i) tr l ->
    extraction titles descriptions n_descriptions limit i
      ((CTextContent (nth titles i), Ok t)
       :: (CTextContent (nth descriptions i), Ok d) :: tr)
      ({| position := i + 1;
          title := trim (text_of t);
          description := trim (text_of d) |} :: l)
| extraction_unpaired i t tr l :
    i < limit -> n_descriptions <= i ->
    extraction titles descriptions n_descriptions limit (S i) tr l ->
    extraction titles descriptions n_descriptions limit i
      ((CTextContent (nth titles i), Ok t) :: tr)
      ({| position := i + 1;
          title := trim (text_of t);
          description := EmptyString |} :: l).

(** The interactions of extractResultData and the entries it returns: no
    entry when counting the titles or the descriptions throws, otherwise
    the entries of the loop over the first ten titles at most. *)
Inductive extracted : list Event -> list ResultEntry -> Prop :=
| extracted_no_titles e :
    extracted [(CAll (locator (resultHeaders locators)), Thrown e)] []
| extracted_no_descriptions n e :
    extracted [(CAll (locator (resultHeaders locators)), Ok (VNumber n));
               (CAll (locator (resultDescriptions locators)), Thrown e)] []
| extracted_entries n_titles n_descriptions tr l :
    extraction (locator (resultHeaders locators))
      (locator (resultDescriptions locators))
      n_descriptions (Nat.min n_titles 10) 0 tr l ->
    extracted ((CAll (locator (resultHeaders locators)), Ok (VNumber n_titles))
               :: (CAll (locator (resultDescriptions locators)),
                   Ok (VNumber n_descriptions)) :: tr) l.

(** ** Pages used in the examples *)
Module Pages.
Import Browser.

(** The first alternative of the search box selector list. *)
Definition textarea_q_shown : string := Eval cbv in
  textarea_q +:+ ":not([aria-hidden=" +:+ dq +:+ "true" +:+ dq +:+ "])".

Definition container : Element :=
  {| el_matches := ["#search"]; el_visible := true; el_text := None;
     el_value := EmptyString |}.

(** A result page for the query "valletta": five result headers, two
    snippets, and a page text with "Malta" and "capital" but without
    "unesco". *)
Definition valletta_results : State :=
  {| url := "https://www.google.com/search?q=valletta";
     offline := false;
     body := Some "Valletta - Wikipedia  Valletta is the Capital city of Malta";
     elements :=
       [ heading "  Valletta - Wikipedia ";
         heading "Visit Malta";
         heading "Valletta, capital of Malta";
         heading "City guide";
         heading "Hotels";
         snippet " Valletta is the capital city of Malta. ";
         snippet "The official tourism site";
         container ] |}.

(** A result page with two result headers only. *)
Definition two_results : State :=
  {| url := "https://www.google.com/search?q=ftira";
     offline := false;
     body := Some "Ftira is a Maltese bread";
     elements := [ heading "Ftira"; heading "Maltese bread" ] |}.

(** A browser without network. *)
Definition no_network : State :=
  {| url := "about:blank"; offline := true; body := Some EmptyString; elements := [] |}.

(** The home page: the search box holds an earlier query. *)
Definition home : State :=
  {| url := "https://www.google.com/";
     offline := false;
     body := Some "Google";
     elements :=
       [ {| el_matches := [textarea_q; textarea_q_shown]; el_visible := true;
            el_text := Some EmptyString; el_value := "valletta" |};
         container ] |}.

(** The home page when no result container ever appears: the search box
    holds an earlier query. *)
Definition stalled : State :=
  {| url := "https://www.google.com/";
     offline := false;
     body := Some "Google";
     elements :=
       [ {| el_matches := [textarea_q; textarea_q_shown]; el_visible := true;
            el_text := Some EmptyString; el_value := "valletta" |} ] |}.

(** A page with two textareas named q: the first one in document order
    carries aria-hidden="true" (it matches [textarea[name=q]] but no
    alternative of the search box), the second one matches the first
    alternative of the search box; both are rendered. *)
Definition two_textareas : State :=
  {| url := "https://www.google.com/";
     offline := false;
     body := Some "Google";
     elements :=
       [ {| el_matches := [textarea_q]; el_visible := true;
            el_text := Some EmptyString; el_value := EmptyString |};
         {| el_matches := [textarea_q; textarea_q_shown]; el_visible := true;
            el_text := Some EmptyString; el_value := EmptyString |};
         container ] |}.

(** A result page whose text contains the word [__proto__]. *)
Definition proto_results : State :=
  {| url := "https://www.google.com/search?q=javascript+prototype";
     offline := false;
     body := Some "Object.prototype.__proto__ - JavaScript | MDN";
     elements := [ heading "Object.prototype.__proto__"; heading "Inheritance";
                   heading "Prototype chain" ] |}.

(** A consent dialog whose second candidate is shown. *)
Definition consent_dialog : State :=
  {| url := "https://www.google.com/";
     offline := false;
     body := Some "Before you continue";
     elements :=
       [ {| el_matches := [List.nth 1 consentSelectors EmptyString];
            el_visible := true; el_text := Some "I agree";
            el_value := EmptyString |} ] |}.

End Pages.

(** A page whose third text read fails because the element went away; the
    state counts the text reads made so far. *)
Module Detaching.

Definition detached : JsError :=
  mkError "Error" "Element is not attached to the DOM".

Definition page (c : Call) : nat -> Outcome (Res c) * nat :=
  match c return nat -> Outcome (Res c) * nat with
  | CAll _ => fun k => (Ok 4, k)
  | CTextContent _ => fun k =>
      if (k =? 2)%nat then (Thrown detached, S k) else (Ok (Some " text "), S k)
  | CUrl => fun k => (Ok "about:blank", k)
  | CIsVisible _ _ => fun k => (Ok false, k)
  | CPageTextContent _ => fun k => (Ok None, k)
  | _ => fun k => (Ok tt, k)
  end.

End Detaching.

(** A page on which every consent candidate is visible, and the click on
    the first one is intercepted by an overlay. *)
Module Overlay.

Definition intercepted : JsError :=
  mkError "TimeoutError" "element intercepts pointer events".

Definition page (c : Call) : unit -> Outcome (Res c) * unit :=
  match c return unit -> Outcome (Res c) * unit with
  | CAll _ => fun u => (Ok 0, u)
  | CTextContent _ => fun u => (Ok None, u)
  | CUrl => fun u => (Ok "https://www.google.com/", u)
  | CIsVisible _ _ => fun u => (Ok true, u)
  | CPageTextContent _ => fun u => (Ok None, u)
  | CClick (locator selector) => fun u =>
      if String.eqb selector (List.nth 0 consentSelectors EmptyString)
      then (Thrown intercepted, u) else (Ok tt, u)
  | _ => fun u => (Ok tt, u)
  end.

End Overlay.

(** A page on which every consent candidate is visible and can be clicked,
    and which is closed during the first settle wait: that wait and every
    call after it throw.  The state tells whether the page is closed. *)
Module Closing.

Definition closed : JsError :=
  mkError "Error" "Target page, context or browser has been closed".

Definition answer {A} (a : A) (is_closed : bool) : Outcome A * bool :=
  if is_closed then (Thrown closed, true) else (Ok a, false).

Definition page (c : Call) : bool -> Outcome (Res c) * bool :=
  match c return bool -> Outcome (Res c) * bool with
  | CAll _ => answer 0
  | CTextContent _ => answer None
  | CUrl => answer "https://www.google.com/"
  | CIsVisible _ _ => answer true
  | CPageTextContent _ => answer None
  | CWaitForTimeout _ => fun _ => (Thrown closed, true)
  | _ => answer tt
  end.

End Closing.

(** Modelled from the spec: the resolution of a locator role the
    specification describes (the code has no such resolver): the
    alternatives are tried in declared order and the first one that matches
    a visible element gives the element. *)
Fixpoint find_visible (alt : string) (i : nat) (es : list Browser.Element) : option nat :=
  match es with
  | [] => None
  | e :: rest =>
      if Browser.matches_simple alt e && Browser.el_visible e then Some i
      else find_visible alt (S i) rest
  end.

Fixpoint first_visible_by_preference (alts : list string) (st : Browser.State)
  : option nat :=
  match alts with
  | [] => None
  | alt :: rest =>
      match find_visible alt 0 (Browser.elements st) with
      | Some i => Some i
      | None => first_visible_by_preference rest st
      end
  end.

(** ** Surface enforcement, as a script *)

(** The calls of _ensureMainSearchPage, in order; [tbm] tells whether the
    URL read by the first call contains [tbm=], [visible] whether the
    "All" tab was found visible. *)
Definition ensureMainSearchPage_script (tbm visible : bool) : list Call :=
  [ CUrl ]
  ++ (if tbm then [ CGoto "https://www.google.com" None; CWaitForTimeout 1000 ] else [])
  ++ [ CIsVisible (locator allTab_selector) 2000 ]
  ++ (if visible then [ CClick (locator allTab_selector); CWaitForTimeout 1000 ] else []).

(** A call that only reads from the page. *)
Definition is_read (c : Call) : bool :=
  match c with
  | CUrl | CIsVisible _ _ | CAll _ | CTextContent _ | CPageTextContent _ => true
  | _ => false
  end.

(** ** White space *)

(** Every code unit of the string is white space. *)
Fixpoint all_space (s : string) : bool :=
  match s with
  | EmptyString => true
  | String c rest => is_space c && all_space rest
  end.

(** No code unit of the string is white space. *)
Fixpoint no_space (s : string) : bool :=
  match s with
  | EmptyString => true
  | String c rest => negb (is_space c) && no_space rest
  end.

(** ** captureEvidence

    The method reads the clock and takes a screenshot; neither is among the
    calls of [Call], so it is embedded over a clock and a screenshot
    function of their own, by explicit state passing. *)

(** [s.replace(/[:.]/g, '-')] *)
Fixpoint replace_colon_dot (s : string) : string :=
  match s with
  | EmptyString => EmptyString
  | String c rest =>
      String (if Ascii.eqb c ":"%char || Ascii.eqb c "."%char then "-"%char else c)
        (replace_colon_dot rest)
  end.

(** The argument of [page.screenshot]; a property that is not given is
    [None]. *)
Record ScreenshotArgs := {
  shot_path : option string;
  shot_fullPage : bool;
  shot_type : option string
}.

(** [{ path: filePath, ...this.config.screenshotOptions }], where
    [screenshotOptions] is [{ fullPage: true, type: 'png' }]. *)
Definition screenshotOptions (path : string) : ScreenshotArgs :=
  {| shot_path := Some path; shot_fullPage := true; shot_type := Some "png" |}.

(** The name of the file: [`${screenshotName}_${timestamp}.png`]. *)
Definition evidence_fileName (screenshotName iso : string) : string :=
  screenshotName +:+ "_" +:+ replace_colon_dot iso +:+ ".png".

(** [`${evidenceFolder}/${fileName}`] *)
Definition evidence_filePath (evidenceFolder fileName : string) : string :=
  evidenceFolder +:+ "/" +:+ fileName.

Section Evidence.

Context {World Buffer : Type}.

(** [new Date().toISOString()]: the clock, read as an ISO string. *)
Variable Date_toISOString : World -> string * World.
(** [this.pageInstance.screenshot(args)], which resolves to the image. *)
Variable screenshot : ScreenshotArgs -> World -> Outcome Buffer * World.

Definition captureEvidence (screenshotName : string) (evidenceFolder_arg : option string)
  : World -> Outcome string * World :=
  fun w =>
    let evidenceFolder := default "evidence" evidenceFolder_arg in
    let (iso, w1) := Date_toISOString w in
    let fileName := evidence_fileName screenshotName iso in
    let filePath := evidence_filePath evidenceFolder fileName in
    match screenshot (screenshotOptions filePath) w1 with
    | (Ok _, w2) => (Ok filePath, w2)
    | (Thrown e, w2) => (Thrown e, w2)
    end.

End Evidence.

(** The shape of [toISOString] for the years 0000 to 9999:
    YYYY-MM-DDTHH:mm:ss.sssZ. *)
Inductive IsoClass : Type := Digit | Lit (c : ascii).

Definition iso_pattern : list IsoClass :=
  [ Digit; Digit; Digit; Digit; Lit "-"; Digit; Digit; Lit "-"; Digit; Digit; Lit "T";
    Digit; Digit; Lit ":"; Digit; Digit; Lit ":"; Digit; Digit; Lit ".";
    Digit; Digit; Digit; Lit "Z" ]%char.

Definition is_digit (c : ascii) : bool :=
  let n := N_of_ascii c in ((48 <=? n) && (n <=? 57))%N.

Fixpoint matches_pattern (p : list IsoClass) (s : string) : bool :=
  match p, s with
  | [], EmptyString => true
  | Digit :: p', String c s' => is_digit c && matches_pattern p' s'
  | Lit l :: p', String c s' => Ascii.eqb c l && matches_pattern p' s'
  | _, _ => false
  end.

Definition iso_format (s : string) : bool := matches_pattern iso_pattern s.

(** ** The test suite (tests/search-validation.spec.js) *)

(** A number as the suite computes it: the quotient of two array lengths.
    The quotient of 0 by 0 is NaN, of a positive length by 0 is Infinity;
    otherwise it is the double nearest to the rational quotient, which is
    at least 0.5 exactly when the rational quotient is (0.5 is a double,
    rounding is monotone, and array lengths are below 2^32, so no quotient
    below one half rounds up to it). *)
Inductive JsQuotient : Type :=
| NaN
| Infinity
| Finite (q : Q).

(** [a / b] for two array lengths. *)
Definition js_divide (a b : nat) : JsQuotient :=
  match b with
  | O => match a with O => NaN | _ => Infinity end
  | _ => Finite (Z.of_nat a # Pos.of_nat b)
  end.

(** [x >= 0.5], the test of [expect(x).toBeGreaterThanOrEqual(0.5)]. *)
Definition at_least_half (x : JsQuotient) : bool :=
  match x with
  | NaN => false
  | Infinity => true
  | Finite q => Qle_bool (1 # 2) q
  end.

(** [keywordSuccessRate] of the suite. *)
Definition keywordSuccessRate (validationResults : ValidationResult)
    (expectedKeywords : list string) : JsQuotient :=
  js_divide
    (length (filter (fun m => m = true)
               (Object_values (keywordMatches validationResults))))
    (length expectedKeywords).

(** [s.split(' ')] *)
Fixpoint split_spaces (s : string) (cur : string) : list string :=
  match s with
  | EmptyString => [cur]
  | String c rest =>
      if Ascii.eqb c " "%char then cur :: split_spaces rest EmptyString
      else split_spaces rest (cur +:+ String c EmptyString)
  end.

Definition split_space (s : string) : list string := split_spaces s EmptyString.

(** [searchTermsInResults] of the suite: some entry holds, in its title or
    description, a word of the term or an expected keyword. *)
Definition searchTermsInResults (term : string) (expectedKeywords : list string)
    (resultData : list ResultEntry) : bool :=
  let searchWords := split_space (toLowerCase term) in
  existsb (fun result =>
    let titleText := toLowerCase (title result) in
    let descriptionText := toLowerCase (description result) in
    existsb (fun word => includes titleText word || includes descriptionText word)
      searchWords
    || existsb (fun keyword =>
          includes titleText (toLowerCase keyword)
          || includes descriptionText (toLowerCase keyword))
         expectedKeywords)
    resultData.

(** [s.replace(/\s+/g, '_')]: every run of white space becomes one
    underscore. *)
Fixpoint replace_spaces (s : string) (in_run : bool) : string :=
  match s with
  | EmptyString => EmptyString
  | String c rest =>
      if is_space c then
        if in_run then replace_spaces rest true
        else String "_"%char (replace_spaces rest true)
      else String c (replace_spaces rest false)
  end.

Definition replace_whitespace (s : string) : string := replace_spaces s false.

(** The string starts, or ends, with a white space code unit. *)
Definition starts_with_space (s : string) : bool :=
  match s with
  | EmptyString => false
  | String c _ => is_space c
  end.

Fixpoint ends_with_space (s : string) : bool :=
  match s with
  | EmptyString => false
  | String c EmptyString => is_space c
  | String _ rest => ends_with_space rest
  end.

(** ** A clock and a camera for the examples

    The state is the ISO string of the current instant; a screenshot fails
    when the path is empty. *)
Module Studio.

Definition clock (w : string) : string * string := (w, w).

Definition no_path : JsError := mkError "Error" "ENOENT: no such file or directory".

Definition camera (args : ScreenshotArgs) (w : string) : Outcome unit * string :=
  match shot_path args with
  | Some EmptyString => (Thrown no_path, w)
  | _ => (Ok tt, w)
  end.

Definition noon : string := "2025-01-15T12:00:00.000Z".

End Studio.

(** A result page whose body has no text content. *)
Definition no_body_results : Browser.State :=
  {| Browser.url := "https://www.google.com/search?q=valletta";
     Browser.offline := false;
     Browser.body := None;
     Browser.elements :=
       [ Browser.heading "Valletta"; Browser.heading "Malta"; Browser.heading "Gozo" ] |}.

(** ** One test case of the suite

    The callback of [test(...)] for one query of the configuration.  Beside
    the page it uses the clock, the screenshots and the attachments of the
    test runner; [testResults], the array declared by the suite, is the
    local store of the callback. *)

(** An entry of [testResults]. *)
Inductive TestRecord : Type :=
| PASSED (searchTerm : string) (duration : Z) (resultCount : nat)
    (keywordMatches : gmap string bool) (evidencePath : string)
    (resultData : list ResultEntry)
| FAILED (searchTerm : string) (duration : Z) (error : string).

Section TestCase.

Context {World Buffer : Type}.
Variable pageInstance : forall c : Call, World -> Outcome (Res c) * World.
Variable toBeGreaterThanOrEqual_message : nat -> Z -> string.
Variable null_property_message : string.
Variable Date_toISOString : World -> string * World.
Variable screenshot : ScreenshotArgs -> World -> Outcome Buffer * World.

(** [Date.now()] *)
Variable Date_now : World -> Z * World.
(** [testInfo.attach(name, { body, contentType })] *)
Variable testInfo_attach : string -> Buffer -> string -> World -> Outcome unit * World.
(** The messages of the two other assertions when they fail. *)
Variable rate_message : JsQuotient -> string.
Variable toBe_message : string.

(** [testConfig.validation]: the minimum and the folder of the
    screenshots. *)
Variable minResultCount : Z.
Variable screenshotPath : option string.

Notation "x <- m ;; k" := (bind m (fun x => k))
  (at level 100, m at next level, k at level 200, right associativity).
Notation "m ;;; k" := (bind m (fun _ => k))
  (at level 100, k at level 200, right associativity).

(** An awaited call outside [Call]: it is not recorded in the trace. *)
Definition lift {S A} (f : World -> Outcome A * World) : M (World := World) S A :=
  fun s w => let (o, w') := f w in mkRun o s w' [].

Definition read_clock {S} : M (World := World) S Z :=
  fun s w => let (t, w') := Date_now w in mkRun (Ok t) s w' [].

(** [testResults.push(record)] *)
Definition push_record (record : TestRecord) : M (World := World) (list TestRecord) unit :=
  fun s w => mkRun (Ok tt) (s ++ [record]) w [].

(** [expect(rate).toBeGreaterThanOrEqual(0.5)] *)
Definition expect_at_least_half {S} (rate : JsQuotient) : M (World := World) S unit :=
  if at_least_half rate then ret tt else throw (new_Error (rate_message rate)).

(** [expect(value).toBe(true)] *)
Definition expect_toBe_true {S} (value : bool) : M (World := World) S unit :=
  if value then ret tt else throw (new_Error toBe_message).

(** The [try] block of the callback. *)
Definition test_phases (testStartTime : Z) (term : string)
    (expectedKeywords : list string) : M (World := World) (list TestRecord) unit :=
  executeSearch pageInstance term ;;;
  evidencePath <-
    lift (captureEvidence Date_toISOString screenshot
            ("test_results_" +:+ replace_whitespace term) screenshotPath) ;;
  screenshotBuffer <-
    lift (screenshot {| shot_path := None; shot_fullPage := true;
                        shot_type := None |}) ;;
  lift (testInfo_attach ("Search Results - " +:+ term) screenshotBuffer
          "image/png") ;;;
  validationResults <-
    validateSearchResults pageInstance toBeGreaterThanOrEqual_message
      null_property_message expectedKeywords (Some minResultCount) ;;
  resultData <- extractResultData pageInstance ;;
  expect_toBeGreaterThanOrEqual toBeGreaterThanOrEqual_message
    (totalResults validationResults) minResultCount ;;;
  expect_at_least_half (keywordSuccessRate validationResults expectedKeywords) ;;;
  expect_toBe_true (searchTermsInResults term expectedKeywords resultData) ;;;
  now <- read_clock ;;
  push_record
    (PASSED term (now - testStartTime) (totalResults validationResults)
       (keywordMatches validationResults) evidencePath (take 3 resultData)).

(** The [catch] block of the callback. *)
Definition test_failed (testStartTime : Z) (term : string) (error : JsError)
  : M (World := World) (list TestRecord) unit :=
  lift (captureEvidence Date_toISOString screenshot
          ("failure_" +:+ replace_whitespace term) screenshotPath) ;;;
  now <- read_clock ;;
  push_record (FAILED term (now - testStartTime) (message error)) ;;;
  throw error.

Definition automated_test_case (term : string) (expectedKeywords : list string)
  : M (World := World) (list TestRecord) unit :=
  testStartTime <- read_clock ;;
  try_catch (test_phases testStartTime term expectedKeywords)
    (test_failed testStartTime term).

End TestCase.

(** A test runner for the examples, over the small browser: the clock
    stands at noon, screenshots and attachments succeed. *)
Module Runner.

Definition clock (w : Browser.State) : string * Browser.State := (Studio.noon, w).
Definition camera (args : ScreenshotArgs) (w : Browser.State)
  : Outcome unit * Browser.State := (Ok tt, w).
Definition now (w : Browser.State) : Z * Browser.State := (1736942400000%Z, w).
Definition attach (name : string) (body : unit) (contentType : string)
    (w : Browser.State) : Outcome unit * Browser.State := (Ok tt, w).
Definition rate_message (rate : JsQuotient) : string :=
  "expect(received).toBeGreaterThanOrEqual(expected)".
Definition toBe_message : string := "expect(received).toBe(expected)".

(** A page with the search box and the results for "valletta". *)
Definition valletta : Browser.State :=
  {| Browser.url := "https://www.google.com/search?q=valletta";
     Browser.offline := false;
     Browser.body := Some "Valletta - Wikipedia  Valletta is the Capital city of Malta";
     Browser.elements :=
       [ {| Browser.el_matches := [textarea_q; Pages.textarea_q_shown];
            Browser.el_visible := true;
            Browser.el_text := Some EmptyString;
            Browser.el_value := EmptyString |};
         Pages.container;
         Browser.heading "  Valletta - Wikipedia ";
         Browser.heading "Visit Malta";
         Browser.heading "Valletta, capital of Malta";
         Browser.heading "City guide";
         Browser.snippet " Valletta is the capital city of Malta. " ] |}.

End Runner.

(** ** The page behind a trace *)
Section Answers.

Context {World : Type}.
Variable pageInstance : forall c : Call, World -> Outcome (Res c) * World.

(** The calls [cs] put to the page one after the other from the state [w],
    whatever each of them answers: the events and the state the page is
    left in. *)
Fixpoint replay (cs : list Call) (w : World) : list Event * World :=
  match cs with
  | [] => ([], w)
  | c :: rest =>
      let (o, w1) := pageInstance c w in
      let (tr, w2) := replay rest w1 in
      ((c, outcome_value c o) :: tr, w2)
  end.

(** A run started in [w] is answered by the page: each recorded call was
    put to the page in the state left by the call before it, its recorded
    completion is the page's answer, and the final state is the one left by
    the last call. *)
Definition answered {S A} (r : Run S World A) (w : World) : Prop :=
  replay (trace r).*1 w = (trace r, world r).

(** A method all of whose runs are answered by the page. *)
Definition faithful {S A} (m : M S A) : Prop :=
  forall s w, answered (m s w) w.

(** The calls [cs] put to the page in order until one of them throws: the
    error of the call that threw, if any, the state the page is left in and
    the events. *)
Fixpoint run_script (cs : list Call) (w : World)
  : option JsError * World * list Event :=
  match cs with
  | [] => (None, w, [])
  | c :: rest =>
      match pageInstance c w with
      | (Ok a, w1) =>
          let '(res, w2, tr) := run_script rest w1 in
          (res, w2, (c, Ok (to_value c a)) :: tr)
      | (Thrown e, w1) => (Some e, w1, [(c, Thrown e)])
      end
  end.

End Answers.

(** The last call of executeSearch: the wait for the result container. *)
Definition wait_for_results : Call :=
  CWaitForSelector (resultContainers locators)
    {| wait_timeout := waitTimeout config; wait_state := None |}.

(** * Properties *)

(** ** Strings *)

Lemma startsWith_spec (s p : string) :
  startsWith s p = true <-> exists post, s = p +:+ post.
Proof.
  revert s. induction p as [|b p IH]; intros s; simpl.
  - split; [intros _; now exists s | auto].
  - destruct s as [|a s].
    + split; [discriminate | intros [post H]; discriminate].
    + destruct (Ascii.eqb_spec a b) as [->|Hne].
      * rewrite IH. split; intros [post H]; exists post.
        -- now rewrite H.
        -- now injection H.
      * split; [discriminate | intros [post H]; injection H; congruence].
Qed.

Lemma includes_spec (s sub : string) :
  includes s sub = true <-> occurs_in sub s.
Proof.
  unfold occurs_in. split.
  - induction s as [|a s IH]; simpl; rewrite orb_true_iff; intros [H|H].
    + apply startsWith_spec in H as [post ->]. now exists EmptyString, post.
    + discriminate.
    + apply startsWith_spec in H as [post ->]. now exists EmptyString, post.
    + destruct (IH H) as (pre & post & ->). now exists (String a pre), post.
  - intros (pre & post & ->). induction pre as [|a pre IH]; simpl.
    + assert (H : startsWith (sub +:+ post) sub = true)
        by (apply startsWith_spec; now exists post).
      destruct (sub +:+ post); simpl; now rewrite H.
    + simpl in IH. rewrite IH. apply orb_true_r.
Qed.

Lemma includes_false_spec (s sub : string) :
  includes s sub = false <-> ~ occurs_in sub s.
Proof.
  rewrite <- includes_spec. destruct (includes s sub); split; congruence.
Qed.

Example toLowerCase_MALTA : toLowerCase "MALTA" = "malta".
Proof. reflexivity. Qed.

Example includes_is_case_sensitive :
  includes "Capital of Malta" "malta" = false /\
  includes (toLowerCase "Capital of Malta") (toLowerCase "MALTA") = true.
Proof. split; reflexivity. Qed.

Example trim_both_ends : trim "  Visit Malta  " = "Visit Malta".
Proof. reflexivity. Qed.

(** *** trim *)

Lemma trimStart_spec (s : string) :
  exists pre, s = pre +:+ trimStart s /\ all_space pre = true.
Proof.
  induction s as [|c s IH]; simpl.
  - now exists EmptyString.
  - destruct (is_space c) eqn:Hc.
    + destruct IH as (pre & Heq & Hpre). exists (String c pre).
      split; [|simpl; now rewrite Hc, Hpre].
      change (String c s = String c (pre +:+ trimStart s)). now f_equal.
    + now exists EmptyString.
Qed.

Lemma trimStart_head (s : string) : starts_with_space (trimStart s) = false.
Proof.
  induction s as [|c s IH]; simpl; [reflexivity|].
  destruct (is_space c) eqn:Hc; [exact IH | simpl; exact Hc].
Qed.

Lemma trimEnd_spec (s : string) :
  exists post, s = trimEnd s +:+ post /\ all_space post = true.
Proof.
  induction s as [|c s IH]; simpl.
  - now exists EmptyString.
  - destruct IH as (post & Heq & Hpost). destruct (trimEnd s) as [|a t].
    + change (s = post) in Heq. rewrite <- Heq in Hpost. destruct (is_space c) eqn:Hc.
      * exists (String c s). simpl. now rewrite Hc, Hpost.
      * now exists s.
    + exists post. split; [|exact Hpost].
      change (String c s = String c (String a t +:+ post)). now f_equal.
Qed.

Lemma trimEnd_last (s : string) : ends_with_space (trimEnd s) = false.
Proof.
  induction s as [|c s IH]; simpl; [reflexivity|].
  destruct (trimEnd s) as [|a t].
  - destruct (is_space c) eqn:Hc; simpl; [reflexivity | exact Hc].
  - exact IH.
Qed.

Lemma trimEnd_head (s : string) :
  starts_with_space s = false -> starts_with_space (trimEnd s) = false.
Proof.
  destruct s as [|c s]; simpl; [reflexivity|]. intros Hc.
  destruct (trimEnd s); [rewrite Hc|]; simpl; exact Hc.
Qed.

(** [trim] removes white space at both ends and nothing else. *)
Lemma trim_spec (s : string) :
  (exists pre post,
      s = pre +:+ trim s +:+ post /\ all_space pre = true /\ all_space post = true) /\
  starts_with_space (trim s) = false /\
  ends_with_space (trim s) = false.
Proof.
  unfold trim. split; [|split].
  - destruct (trimStart_spec s) as (pre & Hs & Hpre).
    destruct (trimEnd_spec (trimStart s)) as (post & Ht & Hpost).
    exists pre, post. split; [|now split]. now rewrite <- Ht.
  - apply trimEnd_head, trimStart_head.
  - apply trimEnd_last.
Qed.

(** ** Math.ceil of a half *)

Lemma Math_ceil_half (n : nat) :
  Math_ceil (inject_Z (Z.of_nat n) / 2) = ((Z.of_nat n + 1) / 2)%Z.
Proof.
  unfold Math_ceil, Qceiling, Qfloor, Qdiv, Qopp, Qmult, Qinv, inject_Z; simpl.
  change (Z.pos (1 * 2)) with 2%Z. rewrite Z.mul_1_r.
  generalize (Z.of_nat n); intros z. Z.div_mod_to_equations. lia.
Qed.

(** The threshold is met exactly when twice the count reaches the length. *)
Lemma Math_ceil_half_le (n c : nat) :
  (Math_ceil (inject_Z (Z.of_nat n) / 2) <= Z.of_nat c)%Z <-> n <= 2 * c.
Proof.
  rewrite Math_ceil_half. Z.div_mod_to_equations. lia.
Qed.

(** ** The keywordMatches object *)

Lemma Object_values_true_count (o : gmap string bool) :
  length (filter (fun m => m = true) (Object_values o)) = matched_count o.
Proof.
  unfold Object_values, matched_count.
  induction o as [|k v o Hk IH] using map_ind.
  - now rewrite map_to_list_empty, map_filter_empty, map_size_empty.
  - rewrite map_to_list_insert by done. rewrite fmap_cons; simpl.
    destruct v.
    + rewrite filter_cons_True by done. simpl. rewrite IH.
      rewrite map_filter_insert_True by done.
      rewrite map_size_insert_None; [done|].
      now rewrite map_lookup_filter_None; left.
    + rewrite filter_cons_False by done. rewrite IH.
      rewrite map_filter_insert_not'; [done | simpl; congruence |].
      intros y Hy. rewrite Hk in Hy. discriminate.
Qed.

Lemma fold_record_keyword (contentLower : string) (keywords : list string)
    (v : ValidationResult) :
  fold_left (record_keyword contentLower) keywords v =
  {| totalResults := totalResults v;
     keywordMatches := record_all contentLower keywords (keywordMatches v);
     isValid := isValid v |}.
Proof.
  revert v. induction keywords as [|k ks IH]; intros [t m b]; simpl; [done|].
  unfold record_all. rewrite IH. done.
Qed.

Lemma record_all_proto (contentLower : string) (keywords : list string)
    (o : gmap string bool) :
  record_all contentLower keywords o !! "__proto__" = o !! "__proto__".
Proof.
  revert o. induction keywords as [|k ks IH]; intros o; [done|].
  unfold record_all in *; simpl. rewrite IH. unfold js_set.
  destruct (decide (k = "__proto__")); [done|]. now rewrite lookup_insert_ne.
Qed.

Lemma record_all_lookup (contentLower : string) (keywords : list string)
    (o : gmap string bool) (k : string) :
  k <> "__proto__" ->
  record_all contentLower keywords o !! k =
  if decide (k ∈ keywords) then Some (includes contentLower (toLowerCase k)) else o !! k.
Proof.
  intros Hk. revert o. induction keywords as [|k' ks IH]; intros o.
  - unfold record_all; cbn [fold_left]. case_decide as H; [by apply elem_of_nil in H | done].
  - unfold record_all in *; cbn [fold_left]. rewrite IH. unfold js_set.
    destruct (decide (k ∈ ks)) as [Hin|Hin].
    + rewrite decide_True; [done | by apply elem_of_cons; right].
    + destruct (decide (k' = "__proto__")) as [->|Hk'].
      * rewrite decide_False; [done|]. intros [?|?]%elem_of_cons; done.
      * destruct (decide (k = k')) as [<-|Hne].
        -- rewrite lookup_insert_eq. rewrite decide_True; [done | by apply elem_of_cons; left].
        -- rewrite lookup_insert_ne by done. rewrite decide_False; [done|].
           intros [?|?]%elem_of_cons; done.
Qed.

(** For keywords other than [__proto__], the object holds one property per
    distinct keyword. *)
Lemma record_all_dom (contentLower : string) (keywords : list string) :
  "__proto__" ∉ keywords ->
  dom (record_all contentLower keywords ∅) = list_to_set (C := gset string) keywords.
Proof.
  intros Hproto. apply set_eq. intros k.
  rewrite elem_of_dom, elem_of_list_to_set.
  destruct (decide (k = "__proto__")) as [->|Hk].
  - rewrite record_all_proto, lookup_empty. split; [intros [? ?]; discriminate | done].
  - rewrite record_all_lookup by done. case_decide as Hin.
    + split; [done | eauto].
    + rewrite lookup_empty. split; [intros [? ?]; discriminate | done].
Qed.

(** For lists without [__proto__], the number of keywords recorded as
    matched is the number of distinct keywords whose lower-cased form occurs
    in the lower-cased content. *)
Lemma matched_count_distinct (contentLower : string) (keywords : list string) :
  "__proto__" ∉ keywords ->
  matched_count (record_all contentLower keywords ∅) =
  size (filter (fun k => includes contentLower (toLowerCase k) = true)
          (list_to_set (C := gset string) keywords)).
Proof.
  intros Hproto. unfold matched_count.
  rewrite <- (size_dom (D := gset string)). f_equal.
  apply set_eq. intros k.
  rewrite elem_of_dom, elem_of_filter, elem_of_list_to_set.
  unfold is_Some. setoid_rewrite map_lookup_filter_Some. simpl.
  destruct (decide (k = "__proto__")) as [->|Hk].
  - rewrite record_all_proto, lookup_empty.
    split; [intros (? & ? & _); discriminate | intros [_ ?]; done].
  - rewrite record_all_lookup by done. case_decide as Hin.
    + split.
      * intros (b & Hb & ->). injection Hb as Hb. done.
      * intros [Hb _]. exists true. rewrite Hb. done.
    + rewrite lookup_empty.
      split; [intros (? & ? & _); discriminate | intros [_ ?]; done].
Qed.

(** ** The methods *)
Section Properties.

Context {World : Type}.
Variable pageInstance : forall c : Call, World -> Outcome (Res c) * World.
Variable toBeGreaterThanOrEqual_message : nat -> Z -> string.
Variable null_property_message : string.

Abbreviation validate := (validateSearchResults pageInstance
                            toBeGreaterThanOrEqual_message null_property_message).
Abbreviation resultHeaders_all := (CAll (locator (resultHeaders locators))).

(** Symbolic execution: reduce the run records, split on the completion of
    the next call into the page, unfold the combinators of a method. *)
Ltac run_simpl :=
  cbn [outcome locals world trace app fst snd outcome_value to_value
       totalResults keywordMatches isValid].

Ltac page_step :=
  match goal with
  | |- context [pageInstance ?c ?w] =>
      let o := fresh "o" in
      let w' := fresh "w" in
      let E := fresh "E" in
      destruct (pageInstance c w) as [o w'] eqn:E; destruct o; run_simpl
  end.

Ltac run_method :=
  unfold try_catch, bind, call, ret, throw, get_locals, with_locals; run_simpl.

(** *** The page behind a trace *)

Lemma replay_app (a b : list Call) (w : World) :
  replay pageInstance (a ++ b) w =
  let (t1, w1) := replay pageInstance a w in
  let (t2, w2) := replay pageInstance b w1 in
  (t1 ++ t2, w2).
Proof.
  revert w. induction a as [|c a IH]; intros w; simpl.
  - now destruct (replay pageInstance b w).
  - destruct (pageInstance c w) as [o w1]. rewrite IH.
    destruct (replay pageInstance a w1) as [t1 w2].
    now destruct (replay pageInstance b w2).
Qed.

Lemma answered_app {S A B} (w w1 : World) (tr1 : list Event)
    (r1 : Run S World A) (r2 : Run S World B) :
  trace r1 = tr1 -> world r1 = w1 ->
  answered pageInstance r1 w -> answered pageInstance r2 w1 ->
  replay pageInstance (tr1 ++ trace r2).*1 w = (tr1 ++ trace r2, world r2).
Proof.
  unfold answered. intros <- <- H1 H2.
  now rewrite fmap_app, replay_app, H1, H2.
Qed.

Lemma faithful_ret {S A} (a : A) : faithful pageInstance (ret (S := S) a).
Proof. intros s w. reflexivity. Qed.

Lemma faithful_throw {S A} (e : JsError) : faithful pageInstance (throw (S := S) (A := A) e).
Proof. intros s w. reflexivity. Qed.

Lemma faithful_get_locals {S} : faithful pageInstance (get_locals (S := S)).
Proof. intros s w. reflexivity. Qed.

Lemma faithful_call {S} (c : Call) : faithful pageInstance (call (S := S) pageInstance c).
Proof.
  intros s w. unfold answered, call.
  destruct (pageInstance c w) as [o w1] eqn:E. simpl. now rewrite E.
Qed.

Lemma faithful_bind {S A B} (m : M S A) (f : A -> M S B) :
  faithful pageInstance m -> (forall a, faithful pageInstance (f a)) ->
  faithful pageInstance (bind m f).
Proof.
  intros Hm Hf s w. specialize (Hm s w). unfold bind.
  destruct (m s w) as [[a|e] s1 w1 tr1]; [|exact Hm].
  specialize (Hf a s1 w1).
  destruct (f a s1 w1) as [o s2 w2 tr2].
  exact (answered_app w w1 tr1 (mkRun (Ok a) s1 w1 tr1) (mkRun o s2 w2 tr2)
           eq_refl eq_refl Hm Hf).
Qed.

Lemma faithful_try_catch {S A} (m : M S A) (h : JsError -> M S A) :
  faithful pageInstance m -> (forall e, faithful pageInstance (h e)) ->
  faithful pageInstance (try_catch m h).
Proof.
  intros Hm Hh s w. specialize (Hm s w). unfold try_catch.
  destruct (m s w) as [[a|e] s1 w1 tr1]; [exact Hm|].
  specialize (Hh e s1 w1).
  destruct (h e s1 w1) as [o s2 w2 tr2].
  exact (answered_app w w1 tr1 (mkRun (A := A) (Thrown e) s1 w1 tr1) (mkRun o s2 w2 tr2)
           eq_refl eq_refl Hm Hh).
Qed.

Lemma faithful_for_of {S A} (xs : list A) (body : A -> M S LoopCtl) :
  (forall x, faithful pageInstance (body x)) ->
  faithful pageInstance (for_of xs body).
Proof.
  intros Hbody. induction xs as [|x xs IH]; cbn [for_of].
  - apply faithful_ret.
  - apply faithful_bind; [apply Hbody|].
    intros [|]; [exact IH | apply faithful_ret].
Qed.

Ltac faithful_steps :=
  cbv zeta;
  repeat first
    [ apply faithful_ret | apply faithful_throw | apply faithful_call
    | apply faithful_get_locals
    | apply faithful_try_catch | apply faithful_bind | apply faithful_for_of
    | match goal with
      | |- forall _, _ => intro
      | |- faithful _ (call _ ?c) => exact (faithful_call c)
      | |- faithful _ (if ?b then _ else _) => destruct b
      end ].

Lemma handleConsentDialogs_faithful {S} :
  faithful pageInstance (_handleConsentDialogs (S := S) pageInstance).
Proof. unfold _handleConsentDialogs. apply faithful_for_of. intros sel. unfold consent_body. faithful_steps. Qed.

Lemma ensureMainSearchPage_faithful {S} :
  faithful pageInstance (_ensureMainSearchPage (S := S) pageInstance).
Proof. unfold _ensureMainSearchPage. faithful_steps. Qed.

Lemma navigateToSearchEngine_faithful {S} (url : string) :
  faithful pageInstance (navigateToSearchEngine (S := S) pageInstance url).
Proof.
  unfold navigateToSearchEngine.
  repeat first [ apply handleConsentDialogs_faithful | apply ensureMainSearchPage_faithful
               | apply faithful_ret | apply faithful_throw | apply faithful_call
               | apply faithful_try_catch | apply faithful_bind
               | match goal with
                 | |- forall _, _ => intro
                 | |- faithful _ (call _ ?c) => exact (faithful_call c)
                 end ].
Qed.

Lemma executeSearch_faithful {S} (searchTerm : string) :
  faithful pageInstance (executeSearch (S := S) pageInstance searchTerm).
Proof. unfold executeSearch. faithful_steps. Qed.

(** A trace that follows a script and is answered by the page is the run
    of the script against the page. *)
Lemma script_run_answered (cs : list Call) (tr : list Event) (res : option JsError) :
  script_run cs tr res ->
  forall w w', replay pageInstance tr.*1 w = (tr, w') ->
               run_script pageInstance cs w = (res, w', tr).
Proof.
  induction 1 as [|c v cs tr res _ IH|c e cs]; intros w w' Hr;
    rewrite ?fmap_cons in Hr; cbn [fst replay run_script fmap list_fmap] in *.
  - now injection Hr as <-.
  - destruct (pageInstance c w) as [[a|e] w1];
      destruct (replay pageInstance tr.*1 w1) as [t w2] eqn:Ht;
      injection Hr as Hl Hw; inversion Hl; subst.
    now rewrite (IH _ _ Ht).
  - destruct (pageInstance c w) as [[a|e'] w1]; injection Hr as Hl Hw;
      inversion Hl; now subst.
Qed.

Lemma run_script_app (a b : list Call) (w : World) :
  run_script pageInstance (a ++ b) w =
  match run_script pageInstance a w with
  | (None, w1, t1) =>
      let '(res, w2, t2) := run_script pageInstance b w1 in (res, w2, t1 ++ t2)
  | (Some e, w1, t1) => (Some e, w1, t1)
  end.
Proof.
  revert w. induction a as [|c a IH]; intros w; simpl.
  - now destruct (run_script pageInstance b w) as [[res w2] t2].
  - destruct (pageInstance c w) as [[x|e] w1]; [|reflexivity].
    rewrite IH. destruct (run_script pageInstance a w1) as [[[e|] w2] t1];
      [reflexivity|].
    now destruct (run_script pageInstance b w2) as [[res w3] t2].
Qed.

(** Every completion of validateSearchResults. *)
Lemma validateSearchResults_cases {S} (expectedKeywords : list string)
    (minResultCount : option Z) (s : S) (w : World) :
  let r := validate expectedKeywords minResultCount s w in
  match pageInstance resultHeaders_all w with
  | (Thrown e, w1) =>
      r = mkRun (Thrown (new_Error ("Result validation failed: " +:+ message e)))
            s w1 [(resultHeaders_all, Thrown e)]
  | (Ok n, w1) =>
      if (default 3 minResultCount <=? Z.of_nat n)%Z then
        match pageInstance (CPageTextContent "body") w1 with
        | (Thrown e, w2) =>
            r = mkRun (Thrown (new_Error ("Result validation failed: " +:+ message e)))
                  s w2 [(resultHeaders_all, Ok (VNumber n));
                        (CPageTextContent "body", Thrown e)]
        | (Ok None, w2) =>
            r = mkRun (Thrown (new_Error ("Result validation failed: "
                                          +:+ null_property_message)))
                  s w2 [(resultHeaders_all, Ok (VNumber n));
                        (CPageTextContent "body", Ok VNull)]
        | (Ok (Some text), w2) =>
            let o := record_all (toLowerCase text) expectedKeywords ∅ in
            r = mkRun
                  (Ok {| totalResults := n;
                         keywordMatches := o;
                         isValid :=
                           (Math_ceil (inject_Z (Z.of_nat (length expectedKeywords)) / 2)
                            <=? Z.of_nat (matched_count o))%Z |})
                  s w2 [(resultHeaders_all, Ok (VNumber n));
                        (CPageTextContent "body", Ok (VString text))]
        end
      else
        r = mkRun (Thrown (new_Error ("Result validation failed: "
                     +:+ toBeGreaterThanOrEqual_message n (default 3%Z minResultCount))))
              s w1 [(resultHeaders_all, Ok (VNumber n))]
  end.
Proof.
  intros r. subst r. unfold validateSearchResults, expect_toBeGreaterThanOrEqual.
  unfold call_toLowerCase. run_method. page_step; [|reflexivity].
  destruct (default 3 minResultCount <=? Z.of_nat a)%Z; run_simpl; [|reflexivity].
  page_step; [|reflexivity].
  destruct a0 as [text|]; run_simpl; [|reflexivity].
  rewrite fold_record_keyword; run_simpl. now rewrite Object_values_true_count.
Qed.

(** C1. Given that the count of result headers is read and reaches the
    minimum, and the text of the page is read, validateSearchResults returns
    a ValidationResult whose [isValid] is true exactly when the number of
    keywords recorded as matched is at least ceil(length expectedKeywords / 2). *)
Theorem validateSearchResults_majority_threshold {S}
    (expectedKeywords : list string) (minResultCount : option Z)
    (s : S) (w w1 w2 : World) (n : nat) (text : string) :
  pageInstance (CAll (locator (resultHeaders locators))) w = (Ok n, w1) ->
  (default 3 minResultCount <= Z.of_nat n)%Z ->
  pageInstance (CPageTextContent "body") w1 = (Ok (Some text), w2) ->
  exists v,
    outcome (validate expectedKeywords minResultCount s w) = Ok v /\
    totalResults v = n /\
    (isValid v = true <->
     (Math_ceil (inject_Z (Z.of_nat (length expectedKeywords)) / 2)
      <= Z.of_nat (matched_count (keywordMatches v)))%Z).
Proof.
  intros Hall Hmin Hbody.
  pose proof (validateSearchResults_cases expectedKeywords minResultCount s w) as H.
  cbv zeta in H. rewrite Hall in H.
  apply Z.leb_le in Hmin. rewrite Hmin, Hbody in H. rewrite H; simpl.
  eexists; split; [reflexivity|]. simpl. split; [reflexivity|].
  apply Z.leb_le.
Qed.

(** For every keyword other than [__proto__], the property recorded for it
    tells whether the lower-cased keyword occurs in the lower-cased page
    text. *)
Lemma validateSearchResults_keyword_recorded {S}
    (expectedKeywords : list string) (minResultCount : option Z)
    (s : S) (w w1 w2 : World) (n : nat) (text : string) (keyword : string) :
  pageInstance (CAll (locator (resultHeaders locators))) w = (Ok n, w1) ->
  (default 3 minResultCount <= Z.of_nat n)%Z ->
  pageInstance (CPageTextContent "body") w1 = (Ok (Some text), w2) ->
  keyword ∈ expectedKeywords ->
  keyword <> "__proto__" ->
  exists v,
    outcome (validate expectedKeywords minResultCount s w) = Ok v /\
    (keywordMatches v !! keyword = Some true <->
     occurs_in (toLowerCase keyword) (toLowerCase text)) /\
    (keywordMatches v !! keyword = Some false <->
     ~ occurs_in (toLowerCase keyword) (toLowerCase text)).
Proof.
  intros Hall Hmin Hbody Hin Hk.
  pose proof (validateSearchResults_cases expectedKeywords minResultCount s w) as H.
  cbv zeta in H. rewrite Hall in H.
  apply Z.leb_le in Hmin. rewrite Hmin, Hbody in H. rewrite H; simpl.
  eexists; split; [reflexivity|]. simpl.
  rewrite record_all_lookup by done. rewrite decide_True by done.
  rewrite <- includes_spec.
  destruct (includes (toLowerCase text) (toLowerCase keyword));
    split; split; congruence.
Qed.

(** C2. When the counted total is strictly below the minimum, the call
    throws; the count of the result headers is the only interaction with
    the page, so the page text is never read and no keyword is matched. *)
Theorem validateSearchResults_too_few_results {S}
    (expectedKeywords : list string) (minResultCount : option Z)
    (s : S) (w w1 : World) (n : nat) :
  pageInstance (CAll (locator (resultHeaders locators))) w = (Ok n, w1) ->
  (Z.of_nat n < default 3 minResultCount)%Z ->
  validate expectedKeywords minResultCount s w =
  mkRun (Thrown (new_Error ("Result validation failed: "
           +:+ toBeGreaterThanOrEqual_message n (default 3%Z minResultCount))))
    s w1 [(CAll (locator (resultHeaders locators)), Ok (VNumber n))].
Proof.
  intros Hall Hlt.
  pose proof (validateSearchResults_cases expectedKeywords minResultCount s w) as H.
  cbv zeta in H. rewrite Hall in H.
  apply Z.leb_gt in Hlt. now rewrite Hlt in H.
Qed.

(** *** Consent handling *)

Lemma consent_loop_trace {S} (sels : list string) (s : S) (w : World) :
  exists w' tr,
    for_of sels (consent_body pageInstance) s w = mkRun (Ok tt) s w' tr /\
    consent_trace sels tr.
Proof.
  revert w. induction sels as [|sel rest IH]; intros w.
  - exists w, []. split; [reflexivity | constructor].
  - cbn [for_of]. unfold consent_body at 1. run_method.
    page_step.
    + destruct a; simpl.
      * page_step.
        -- page_step.
           ++ eexists _, _. split; [reflexivity | constructor].
           ++ destruct (IH w2) as (w' & tr & -> & Htr); simpl.
              eexists _, _. split; [reflexivity | now constructor].
        -- destruct (IH w1) as (w' & tr & -> & Htr); simpl.
           eexists _, _. split; [reflexivity | now constructor].
      * destruct (IH w0) as (w' & tr & -> & Htr); simpl.
        eexists _, _. split; [reflexivity | now constructor].
    + destruct (IH w0) as (w' & tr & -> & Htr); simpl.
      eexists _, _. split; [reflexivity | now constructor].
Qed.











(** *** Navigation *)

Lemma ensureMainSearchPage_ok {S} (s : S) (w : World) :
  exists w' tr, _ensureMainSearchPage pageInstance s w = mkRun (Ok tt) s w' tr.
Proof.
  unfold _ensureMainSearchPage. run_method.
  repeat first
    [ page_step
    | match goal with
      | |- context [if ?b then _ else _] => destruct b; run_simpl
      end ];
    eauto.
  all: match goal with |- context [mkRun (Ok ?a)] => destruct a end; eauto.
Qed.

Abbreviation goto_engine url :=
  (CGoto url (Some {| goto_waitUntil := "domcontentloaded";
                      goto_timeout := navigationTimeout config |})).

(** Every completion of navigateToSearchEngine. *)
Lemma navigateToSearchEngine_cases {S} (url : string) (s : S) (w : World) :
  let r := navigateToSearchEngine pageInstance url s w in
  match pageInstance (goto_engine url) w with
  | (Thrown e, w1) =>
      r = mkRun (Thrown (new_Error ("Navigation failed: " +:+ message e))) s w1
            [(goto_engine url, Thrown e)]
  | (Ok _, w1) =>
      match pageInstance (CWaitForTimeout 2000) w1 with
      | (Thrown e, w2) =>
          r = mkRun (Thrown (new_Error ("Navigation failed: " +:+ message e))) s w2
                [(goto_engine url, Ok VUndefined); (CWaitForTimeout 2000, Thrown e)]
      | (Ok _, w2) =>
          exists w' tr,
            r = mkRun (Ok tt) s w'
                  ((goto_engine url, Ok VUndefined)
                   :: (CWaitForTimeout 2000, Ok VUndefined) :: tr)
      end
  end.
Proof.
  intros r; subst r. unfold navigateToSearchEngine. run_method.
  page_step; [|reflexivity]. page_step; [|reflexivity].
  destruct (consent_loop_trace consentSelectors s w1) as (w2 & tr & Hc & _).
  unfold _handleConsentDialogs. rewrite Hc; simpl.
  destruct (ensureMainSearchPage_ok s w2) as (w3 & tr' & ->); simpl.
  eauto.
Qed.

(** *** Search execution *)

Lemma executeSearch_script_run {S} (searchTerm : string) (s : S) (w : World) :
  let r := executeSearch pageInstance searchTerm s w in
  exists (isch : bool) (res : option JsError),
    script_run (executeSearch_script searchTerm isch) (trace r) res /\
    outcome r = wrapped "Search execution failed: " res /\
    locals r = s /\
    (res = None ->
     exists pre,
       trace r = pre ++
         [ (CClick searchInput, Ok VUndefined);
           (CClear searchInput, Ok VUndefined);
           (CFill searchInput searchTerm, Ok VUndefined);
           (CPress searchInput "Enter", Ok VUndefined);
           (CWaitForSelector (resultContainers locators)
              {| wait_timeout := waitTimeout config; wait_state := None |},
            Ok VUndefined) ]) /\
    (forall u, (CUrl, Ok (VString u)) ∈ trace r -> isch = includes u "tbm=isch").
Proof.
  intros r; subst r. unfold executeSearch. run_method.
  assert (Hurl : forall (u u' : string) (tr : list Event),
             (forall ev, ev ∈ tr -> ev.1 <> CUrl) ->
             (CUrl, Ok (VString u')) ∈ (CUrl, Ok (VString u)) :: tr -> u' = u).
  { intros u u' tr Hno [Heq|Hin]%elem_of_cons; [congruence|].
    exfalso. now apply (Hno _ Hin). }
  page_step.
  2:{ exists false, (Some e). repeat split; [apply script_abort | discriminate |].
      intros u [H|H]%elem_of_cons; [discriminate | inversion H]. }
  page_step.
  2:{ exists false, (Some e).
      repeat split; [apply script_ok, script_abort | discriminate |].
      intros u [H|[H|H]%elem_of_cons]%elem_of_cons;
        [discriminate | discriminate | inversion H]. }
  destruct (includes a0 "tbm=isch") eqn:Hisch; simpl.
  all: repeat page_step.
  all: match goal with
       | |- context [Thrown (new_Error (_ +:+ message ?e))] =>
           exists (includes a0 "tbm=isch"), (Some e)
       | |- _ => exists (includes a0 "tbm=isch"), None
       end.
  all: rewrite Hisch; unfold executeSearch_script; simpl.
  all: repeat split;
       [ repeat first [ apply script_done | apply script_abort | apply script_ok ]
       | first [ discriminate
               | intros _;
                 match goal with
                 | |- exists pre, ?tr = pre ++ _ =>
                     exists (take (length tr - 5) tr); reflexivity
                 end ]
       | intros u [H|H]%elem_of_cons; [discriminate|];
         apply (Hurl a0 u) in H; [now subst|];
         intros ev Hev; repeat (apply elem_of_cons in Hev as [->|Hev]; [discriminate|]);
         inversion Hev ].
Qed.

Lemma script_run_prefix (cs : list Call) (tr : list Event) (res : option JsError) :
  script_run cs tr res -> tr.*1 `prefix_of` cs.
Proof.
  induction 1; simpl.
  - apply prefix_nil.
  - now apply prefix_cons.
  - apply prefix_cons, prefix_nil.
Qed.

Lemma script_run_complete (cs : list Call) (tr : list Event) :
  script_run cs tr None -> tr.*1 = cs /\ Forall (fun ev => exists v, ev.2 = Ok v) tr.
Proof.
  remember None as res eqn:Hres. induction 1; try discriminate.
  - split; [reflexivity | constructor].
  - destruct (IHscript_run Hres) as [Heq Hok]. split; [cbn; now rewrite Heq|].
    constructor; [now exists v | exact Hok].
Qed.

Lemma script_run_thrown (cs : list Call) (tr : list Event) (res : option JsError) :
  script_run cs tr res ->
  forall c cause, (c, Thrown cause) ∈ tr ->
                  res = Some cause /\ last tr = Some (c, Thrown cause).
Proof.
  induction 1; intros c' cause Hin.
  - inversion Hin.
  - apply elem_of_cons in Hin as [Heq|Hin]; [discriminate|].
    destruct (IHscript_run _ _ Hin) as [-> Hlast]. split; [reflexivity|].
    destruct tr; [discriminate | exact Hlast].
  - apply elem_of_cons in Hin as [Heq|Hin]; [|inversion Hin].
    injection Heq as -> ->. now split.
Qed.

Lemma script_run_aborted (cs : list Call) (tr : list Event) (cause : JsError) :
  script_run cs tr (Some cause) -> exists c, last tr = Some (c, Thrown cause).
Proof.
  remember (Some cause) as res eqn:Hres. induction 1; try discriminate.
  - destruct (IHscript_run Hres) as [c' Hlast]. exists c'.
    destruct tr; [discriminate | exact Hlast].
  - injection Hres as ->. now exists c.
Qed.

Lemma executeSearch_script_last (searchTerm : string) (isch : bool) :
  executeSearch_script searchTerm isch =
  ([ CWaitForSelector (searchBox locators)
       {| wait_timeout := 10000; wait_state := Some "visible" |};
     CUrl ]
   ++ (if isch then
         [ CGoto "https://www.google.com" None;
           CWaitForSelector textarea_q {| wait_timeout := 5000; wait_state := None |} ]
       else [])
   ++ [ CClick searchInput ])
  ++ [ CClear searchInput; CFill searchInput searchTerm;
       CPress searchInput "Enter"; wait_for_results ].
Proof. now destruct isch. Qed.

(** C8. executeSearch runs [executeSearch_script] against the page: after
    the wait for the search box and the check of the surface, the input is
    clicked, cleared, filled with the search term, Enter is pressed on it,
    and the result container is awaited with the configured timeout.  Each
    call is put to the page in the state left by the call before it and
    only after the calls before it succeeded; no other call (none on the
    submit control) is made; the method returns only when the whole script
    succeeded.  When the calls before the final wait succeeded and the wait
    for the result container throws, the method throws the [Error] whose
    message is "Search execution failed: " followed by the message of the
    cause.  When the method returns, the fill was put to the page in the
    state the clear had left: for every reading [value] of the page that a
    clear empties and that a fill of an empty input sets to the text filled
    in, the page holds exactly the search term after the fill. *)
Theorem executeSearch_clear_fill_enter_wait {S} (searchTerm : string)
    (s : S) (w : World) :
  let r := executeSearch pageInstance searchTerm s w in
  exists (isch : bool) (res : option JsError),
    script_run (executeSearch_script searchTerm isch) (trace r) res /\
    outcome r = wrapped "Search execution failed: " res /\
    (res = None ->
     exists pre,
       trace r = pre ++
         [ (CClick searchInput, Ok VUndefined);
           (CClear searchInput, Ok VUndefined);
           (CFill searchInput searchTerm, Ok VUndefined);
           (CPress searchInput "Enter", Ok VUndefined);
           (CWaitForSelector (resultContainers locators)
              {| wait_timeout := waitTimeout config; wait_state := None |},
            Ok VUndefined) ]) /\
    (forall c cause, (c, Thrown cause) ∈ trace r -> res = Some cause) /\
    locals r = s /\
    run_script pageInstance (executeSearch_script searchTerm isch) w
    = (res, world r, trace r) /\
    (forall u w1 w2,
       pageInstance (CWaitForSelector (searchBox locators)
                       {| wait_timeout := 10000; wait_state := Some "visible" |}) w
       = (Ok tt, w1) ->
       pageInstance CUrl w1 = (Ok u, w2) ->
       isch = includes u "tbm=isch") /\
    (forall pre tr0 w1 w2 cause,
       executeSearch_script searchTerm isch = pre ++ [wait_for_results] ->
       run_script pageInstance pre w = (None, w1, tr0) ->
       pageInstance wait_for_results w1 = (Thrown cause, w2) ->
       r = mkRun (Thrown (new_Error ("Search execution failed: " +:+ message cause)))
             s w2 (tr0 ++ [(wait_for_results, Thrown cause)])) /\
    (outcome r = Ok tt ->
     exists pre tr0 w1 w2 w3,
       executeSearch_script searchTerm isch =
       pre ++ [ CClear searchInput; CFill searchInput searchTerm;
                CPress searchInput "Enter"; wait_for_results ] /\
       run_script pageInstance pre w = (None, w1, tr0) /\
       pageInstance (CClear searchInput) w1 = (Ok tt, w2) /\
       pageInstance (CFill searchInput searchTerm) w2 = (Ok tt, w3) /\
       forall value : World -> string,
         (forall v v', pageInstance (CClear searchInput) v = (Ok tt, v') ->
                       value v' = EmptyString) ->
         (forall t v v', pageInstance (CFill searchInput t) v = (Ok tt, v') ->
                         value v = EmptyString -> value v' = t) ->
         value w3 = searchTerm).
Proof.
  intros r.
  destruct (executeSearch_script_run searchTerm s w)
    as (isch & res & Hrun & Hout & Hloc & Hok & Hurl).
  pose proof (executeSearch_faithful searchTerm s w) as Hans. unfold answered in Hans.
  fold r in Hrun, Hout, Hloc, Hok, Hurl, Hans.
  pose proof (script_run_answered _ _ _ Hrun _ _ Hans) as Hscript.
  exists isch, res.
  split; [exact Hrun|]. split; [exact Hout|]. split; [exact Hok|].
  split; [intros c cause Hin; now destruct (script_run_thrown _ _ _ Hrun _ _ Hin)|].
  split; [exact Hloc|]. split; [exact Hscript|].
  split; [|split].
  - intros u w1 w2 Hwait Hu. apply Hurl.
    unfold executeSearch_script in Hscript. cbn [app run_script] in Hscript.
    rewrite Hwait, Hu in Hscript.
    destruct (run_script pageInstance _ w2) as [[res' w'] tr'].
    injection Hscript as _ _ <-. right; left.
  - intros pre tr0 w1 w2 cause Hpre Hrun0 Hwait.
    rewrite Hpre, run_script_app, Hrun0 in Hscript.
    cbn [run_script] in Hscript. rewrite Hwait in Hscript.
    injection Hscript as <- Hw Htr. unfold wrapped in Hout.
    clearbody r. destruct r as [o s' w' tr].
    cbn [outcome locals world trace] in *. now subst.
  - intros Hret.
    assert (res = None) as -> by (destruct res; [rewrite Hout in Hret; discriminate|reflexivity]).
    rewrite executeSearch_script_last, run_script_app in Hscript.
    destruct (run_script pageInstance _ w) as [[[e|] w1] tr0] eqn:Hpre;
      [discriminate|].
    cbn [run_script] in Hscript.
    destruct (pageInstance (CClear searchInput) w1) as [[[]|e] w2] eqn:Hclear;
      [|discriminate].
    destruct (pageInstance (CFill searchInput searchTerm) w2) as [[[]|e] w3] eqn:Hfill;
      [|discriminate].
    eexists _, tr0, w1, w2, w3.
    split; [apply executeSearch_script_last|]. split; [exact Hpre|].
    split; [exact Hclear|]. split; [exact Hfill|].
    intros value Hc Hf. apply (Hf _ _ _ Hfill), (Hc _ _ Hclear).
Qed.

(** C3 (as amended). The class does not try the alternatives of a role one
    by one: executeSearch hands the whole selector list of the search box to
    the page in one wait, its calls are the ones of [executeSearch_script]
    in order, and every call that acts on an element (click, clear, fill,
    press) acts on the first match of the fixed selector textarea[name=q],
    with the search term as the value filled. *)
Theorem executeSearch_acts_on_fixed_textarea {S} (searchTerm : string)
    (s : S) (w : World) :
  let r := executeSearch pageInstance searchTerm s w in
  (exists o rest,
      trace r =
      (CWaitForSelector (searchBox locators)
         {| wait_timeout := 10000; wait_state := Some "visible" |}, o) :: rest) /\
  (exists isch, (trace r).*1 `prefix_of` executeSearch_script searchTerm isch) /\
  Forall (fun ev : Event =>
            match ev.1 with
            | CClick l | CClear l | CPress l _ => l = first (locator textarea_q)
            | CFill l v => l = first (locator textarea_q) /\ v = searchTerm
            | _ => True
            end) (trace r).
Proof.
  intros r.
  destruct (executeSearch_script_run searchTerm s w)
    as (isch & res & Hrun & _ & _ & _ & _).
  fold r in Hrun. split; [|split].
  - inversion Hrun; subst; eauto.
  - exists isch. now apply script_run_prefix in Hrun.
  - apply script_run_prefix in Hrun. destruct Hrun as [k Hk].
    assert (Hall : Forall (fun c : Call =>
              match c with
              | CClick l | CClear l | CPress l _ => l = first (locator textarea_q)
              | CFill l v => l = first (locator textarea_q) /\ v = searchTerm
              | _ => True
              end) (executeSearch_script searchTerm isch)).
    { destruct isch; unfold executeSearch_script, searchInput; simpl;
        repeat constructor. }
    rewrite Hk in Hall. apply Forall_app in Hall as [Hall _].
    now apply Forall_fmap in Hall.
Qed.

Lemma prefix_messages_differ (cause1 cause2 : string) :
  "Navigation failed: " +:+ cause1 <> "Search execution failed: " +:+ cause2.
Proof. discriminate. Qed.

(** C7 (as amended). A failure of the navigation or of the settle wait of
    navigateToSearchEngine is rethrown as an [Error] whose message is
    "Navigation failed: " followed by the message of the cause; every
    failure inside executeSearch is rethrown as an [Error] whose message is
    "Search execution failed: " followed by the message of the cause.  The
    class of the error is [Error] in both phases; the phases differ by the
    prefix of the message. *)
Theorem failures_rethrown_as_Error_with_prefix {S} (url searchTerm : string)
    (s : S) (w : World) :
  let nav := navigateToSearchEngine pageInstance url s w in
  let search := executeSearch pageInstance searchTerm s w in
  match outcome nav with
  | Ok _ =>
      exists tr, trace nav = (goto_engine url, Ok VUndefined)
                             :: (CWaitForTimeout 2000, Ok VUndefined) :: tr
  | Thrown e =>
      err_name e = "Error" /\
      exists c cause,
        (c = goto_engine url \/ c = CWaitForTimeout 2000) /\
        last (trace nav) = Some (c, Thrown cause) /\
        message e = "Navigation failed: " +:+ message cause
  end /\
  match outcome search with
  | Ok _ => Forall (fun ev : Event => exists v, ev.2 = Ok v) (trace search)
  | Thrown e =>
      err_name e = "Error" /\
      exists c cause,
        last (trace search) = Some (c, Thrown cause) /\
        message e = "Search execution failed: " +:+ message cause
  end /\
  (forall cause1 cause2 : string,
      "Navigation failed: " +:+ cause1 <> "Search execution failed: " +:+ cause2).
Proof.
  intros nav search. split; [|split].
  - pose proof (navigateToSearchEngine_cases url s w) as H. cbv zeta in H. fold nav in H.
    destruct (pageInstance (goto_engine url) w) as [[[]|e] w1].
    + destruct (pageInstance (CWaitForTimeout 2000) w1) as [[[]|e] w2].
      * destruct H as (w' & tr & ->). simpl. now exists tr.
      * rewrite H. simpl. split; [reflexivity|].
        exists (CWaitForTimeout 2000), e. auto.
    + rewrite H. simpl. split; [reflexivity|].
      exists (goto_engine url), e. auto.
  - destruct (executeSearch_script_run searchTerm s w)
      as (isch & res & Hrun & Hout & _ & _ & _).
    fold search in Hrun, Hout. rewrite Hout. destruct res as [cause|]; simpl.
    + split; [reflexivity|]. apply script_run_aborted in Hrun as [c Hc]. eauto.
    + now apply script_run_complete in Hrun as [_ Hok].
  - apply prefix_messages_differ.
Qed.

(** *** Result extraction *)

Abbreviation text_value t :=
  (match t with Some s => VString s | None => VNull end).

Lemma text_of_value (t : option string) : text_of (text_value t) = or_empty t.
Proof. now destruct t. Qed.

(** Every completion of one iteration of the extraction loop. *)
Lemma extract_body_cases (titles descriptions : Locator) (n_descriptions i : nat)
    (acc : list ResultEntry) (w : World) :
  let r := extract_body pageInstance titles descriptions n_descriptions i acc w in
  match pageInstance (CTextContent (nth titles i)) w with
  | (Thrown e, w1) =>
      r = mkRun (Thrown e) acc w1 [(CTextContent (nth titles i), Thrown e)]
  | (Ok t, w1) =>
      if (i <? n_descriptions)%nat then
        match pageInstance (CTextContent (nth descriptions i)) w1 with
        | (Thrown e, w2) =>
            r = mkRun (Thrown e) acc w2
                  [(CTextContent (nth titles i), Ok (text_value t));
                   (CTextContent (nth descriptions i), Thrown e)]
        | (Ok d, w2) =>
            r = mkRun (Ok Next)
                  (acc ++ [{| position := i + 1;
                              title := trim (text_of (text_value t));
                              description := trim (text_of (text_value d)) |}])
                  w2
                  [(CTextContent (nth titles i), Ok (text_value t));
                   (CTextContent (nth descriptions i), Ok (text_value d))]
        end
      else
        r = mkRun (Ok Next)
              (acc ++ [{| position := i + 1;
                          title := trim (text_of (text_value t));
                          description := EmptyString |}])
              w1
              [(CTextContent (nth titles i), Ok (text_value t))]
  end.
Proof.
  intros r; subst r. unfold extract_body, push. run_method.
  page_step; [|reflexivity].
  destruct (i <? n_descriptions)%nat; run_simpl.
  - page_step; [|reflexivity]. now rewrite !text_of_value.
  - now rewrite text_of_value.
Qed.

Lemma extract_loop_spec (titles descriptions : Locator) (n_descriptions : nat)
    (k i : nat) (acc : list ResultEntry) (w : World) :
  let r := for_of (seq i k)
             (extract_body pageInstance titles descriptions n_descriptions) acc w in
  exists new,
    locals r = acc ++ new /\
    extraction titles descriptions n_descriptions (i + k) i (trace r) new.
Proof.
  revert i acc w. induction k as [|k IH]; intros i acc w r; subst r.
  - exists []. split; [now rewrite app_nil_r | constructor; lia].
  - cbn [seq for_of]. unfold bind.
    pose proof (extract_body_cases titles descriptions n_descriptions i acc w) as H.
    cbv zeta in H.
    destruct (pageInstance (CTextContent (nth titles i)) w) as [[t|e] w1].
    2:{ rewrite H. exists []. split; [now rewrite app_nil_r | constructor; lia]. }
    destruct (Nat.ltb_spec i n_descriptions) as [Hlt|Hge].
    + destruct (pageInstance (CTextContent (nth descriptions i)) w1) as [[d|e] w2].
      2:{ rewrite H. exists []. split; [now rewrite app_nil_r | constructor; lia]. }
      rewrite H.
      match goal with
      | |- context [for_of (seq (S i) k) ?b ?acc' ?w'] =>
          destruct (IH (S i) acc' w') as (new & Hloc & Hext);
          destruct (for_of (seq (S i) k) b acc' w') as [o' s' w'' tr']
      end.
      simpl in *. subst s'. eexists (_ :: new).
      split; [now rewrite <- app_assoc|].
      replace (i + S k) with (S i + k) by lia.
      apply extraction_paired; (lia || exact Hext).
    + rewrite H.
      match goal with
      | |- context [for_of (seq (S i) k) ?b ?acc' ?w'] =>
          destruct (IH (S i) acc' w') as (new & Hloc & Hext);
          destruct (for_of (seq (S i) k) b acc' w') as [o' s' w'' tr']
      end.
      simpl in *. subst s'. eexists (_ :: new).
      split; [now rewrite <- app_assoc|].
      replace (i + S k) with (S i + k) by lia.
      apply extraction_unpaired; (lia || exact Hext).
Qed.


Lemma extraction_length (titles descriptions : Locator) (n_descriptions limit : nat)
    (i : nat) (tr : list Event) (l : list ResultEntry) :
  extraction titles descriptions n_descriptions limit i tr l ->
  length l <= limit - i /\
  (Forall (fun ev : Event => exists v, ev.2 = Ok v) tr -> length l = limit - i).
Proof.
  induction 1 as [i Hi|i e Hi|i t e Hi Hd|i t d tr l Hi Hd _ IH|i t tr l Hi Hd _ IH];
    simpl.
  - split; [lia | intros _; lia].
  - split; [lia|]. intros Hok. apply Forall_cons in Hok as [[v Hv] _]. discriminate.
  - split; [lia|]. intros Hok.
    apply Forall_cons in Hok as [_ Hok]. apply Forall_cons in Hok as [[v Hv] _].
    discriminate.
  - destruct IH as [IH1 IH2]. split; [lia|]. intros Hok.
    apply Forall_cons in Hok as [_ Hok]. apply Forall_cons in Hok as [_ Hok].
    specialize (IH2 Hok). lia.
  - destruct IH as [IH1 IH2]. split; [lia|]. intros Hok.
    apply Forall_cons in Hok as [_ Hok]. specialize (IH2 Hok). lia.
Qed.

Abbreviation titles_all := (CAll (locator (resultHeaders locators))).
Abbreviation descriptions_all := (CAll (locator (resultDescriptions locators))).

(** Every completion of extractResultData. *)
Lemma extractResultData_cases {S} (s : S) (w : World) :
  let r := extractResultData pageInstance s w in
  match pageInstance titles_all w with
  | (Thrown e, w1) => r = mkRun (Ok []) s w1 [(titles_all, Thrown e)]
  | (Ok n_titles, w1) =>
      match pageInstance descriptions_all w1 with
      | (Thrown e, w2) =>
          r = mkRun (Ok []) s w2
                [(titles_all, Ok (VNumber n_titles)); (descriptions_all, Thrown e)]
      | (Ok n_descriptions, w2) =>
          exists l w' tr,
            r = mkRun (Ok l) s w'
                  ((titles_all, Ok (VNumber n_titles))
                   :: (descriptions_all, Ok (VNumber n_descriptions)) :: tr) /\
            extraction (locator (resultHeaders locators))
              (locator (resultDescriptions locators))
              n_descriptions (Nat.min n_titles 10) 0 tr l
      end
  end.
Proof.
  intros r; subst r. unfold extractResultData. run_method.
  page_step; [|reflexivity]. page_step; [|reflexivity].
  match goal with
  | |- context [for_of (seq 0 ?k) ?b ?acc ?w'] =>
      destruct (extract_loop_spec (locator (resultHeaders locators))
                  (locator (resultDescriptions locators)) a0 k 0 acc w')
        as (new & Hloc & Hext);
      destruct (for_of (seq 0 k) b acc w') as [[[]|e] s' w'' tr']
  end; cbn [locals trace app] in Hloc, Hext; subst s'; run_simpl.
  all: rewrite ?app_nil_r; exists new, w'', tr'; split; [reflexivity | exact Hext].
Qed.

(** C4. extractResultData never throws: it returns a list of entries, and
    its interactions and the entries satisfy [extracted]: a read that throws
    ends the extraction, and the entries returned are the ones pushed by the
    iterations completed before it (none when a count throws). *)
Theorem extractResultData_never_throws {S} (s : S) (w : World) :
  let r := extractResultData pageInstance s w in
  exists l, outcome r = Ok l /\ locals r = s /\ extracted (trace r) l.
Proof.
  intros r. pose proof (extractResultData_cases s w) as H. cbv zeta in H. fold r in H.
  destruct (pageInstance titles_all w) as [[n|e] w1].
  - destruct (pageInstance descriptions_all w1) as [[m|e] w2].
    + destruct H as (l & w' & tr & -> & Hext). exists l. simpl.
      repeat split. now constructor.
    + rewrite H. exists []. simpl. repeat split. constructor.
  - rewrite H. exists []. simpl. repeat split. constructor.
Qed.


(** *** More on validateSearchResults *)

Lemma includes_empty (s : string) : includes s EmptyString = true.
Proof. now destruct s. Qed.

Lemma matched_count_empty : matched_count ∅ = 0.
Proof. unfold matched_count. now rewrite map_filter_empty, map_size_empty. Qed.

Lemma record_all_lookup_Some (contentLower : string) (keywords : list string)
    (k : string) (b : bool) :
  record_all contentLower keywords ∅ !! k = Some b ->
  k ∈ keywords /\ k <> "__proto__" /\ b = includes contentLower (toLowerCase k).
Proof.
  intros H. destruct (decide (k = "__proto__")) as [->|Hk].
  - rewrite record_all_proto, lookup_empty in H. discriminate.
  - rewrite record_all_lookup in H by done. case_decide as Hin.
    + injection H as <-. done.
    + rewrite lookup_empty in H. discriminate.
Qed.

(** For a list without duplicates and without [__proto__], the number of
    keywords recorded as matched is the number of listed keywords found. *)
Lemma matched_count_NoDup (contentLower : string) (keywords : list string) :
  NoDup keywords ->
  "__proto__" ∉ keywords ->
  matched_count (record_all contentLower keywords ∅) =
  length (filter (fun k => includes contentLower (toLowerCase k) = true) keywords).
Proof.
  intros Hnd Hproto. rewrite matched_count_distinct by done.
  rewrite <- (size_list_to_set (C := gset string)) by now apply NoDup_filter.
  f_equal. apply set_eq. intros k.
  rewrite elem_of_filter, !elem_of_list_to_set, list_elem_of_filter. done.
Qed.

(** X1. Whenever validateSearchResults returns a result, the result
    satisfies: the total reaches the minimum; the page text was read, as the
    last interaction; every property of keywordMatches belongs to an
    expected keyword other than [__proto__] and tells whether the
    lower-cased keyword occurs in the lower-cased text; and [isValid] holds
    exactly when twice the number of matched properties reaches the number
    of expected keywords. *)
Theorem validateSearchResults_postcondition {S}
    (expectedKeywords : list string) (minResultCount : option Z)
    (s : S) (w : World) (v : ValidationResult) :
  outcome (validate expectedKeywords minResultCount s w) = Ok v ->
  (default 3 minResultCount <= Z.of_nat (totalResults v))%Z /\
  (exists text,
      last (trace (validate expectedKeywords minResultCount s w))
        = Some (CPageTextContent "body", Ok (VString text)) /\
      forall k b, keywordMatches v !! k = Some b ->
                  k ∈ expectedKeywords /\ k <> "__proto__" /\
                  b = includes (toLowerCase text) (toLowerCase k)) /\
  (isValid v = true <->
   length expectedKeywords <= 2 * matched_count (keywordMatches v)).
Proof.
  intros Hv.
  pose proof (validateSearchResults_cases expectedKeywords minResultCount s w) as H.
  cbv zeta in H.
  destruct (pageInstance resultHeaders_all w) as [[n|e] w1];
    [|rewrite H in Hv; discriminate].
  destruct (default 3 minResultCount <=? Z.of_nat n)%Z eqn:Hmin;
    [|rewrite H in Hv; discriminate].
  destruct (pageInstance (CPageTextContent "body") w1) as [[[text|]|e] w2];
    rewrite H in Hv |- *; try discriminate.
  injection Hv as <-. cbn [totalResults keywordMatches isValid trace].
  split; [now apply Z.leb_le|]. split.
  - exists text. split; [reflexivity|]. apply record_all_lookup_Some.
  - rewrite Z.leb_le. apply Math_ceil_half_le.
Qed.

(** X2. With no expected keyword, and the count and the page text read,
    validateSearchResults returns an empty keywordMatches and a valid
    result, whatever the text is. *)
Theorem validateSearchResults_no_keywords {S} (minResultCount : option Z)
    (s : S) (w w1 w2 : World) (n : nat) (text : string) :
  pageInstance (CAll (locator (resultHeaders locators))) w = (Ok n, w1) ->
  (default 3 minResultCount <= Z.of_nat n)%Z ->
  pageInstance (CPageTextContent "body") w1 = (Ok (Some text), w2) ->
  outcome (validate [] minResultCount s w) =
  Ok {| totalResults := n; keywordMatches := ∅; isValid := true |}.
Proof.
  intros Hall Hmin Hbody.
  pose proof (validateSearchResults_cases [] minResultCount s w) as H.
  cbv zeta in H. rewrite Hall in H.
  apply Z.leb_le in Hmin. rewrite Hmin, Hbody in H. rewrite H.
  cbn [outcome record_all fold_left]. rewrite matched_count_empty. reflexivity.
Qed.

(** X3. When the count reaches the minimum but the text content of the body
    is null, validateSearchResults throws an [Error] whose message is
    "Result validation failed: " followed by the engine's message for the
    call on null; no result is returned. *)
Theorem validateSearchResults_null_body {S}
    (expectedKeywords : list string) (minResultCount : option Z)
    (s : S) (w w1 w2 : World) (n : nat) :
  pageInstance (CAll (locator (resultHeaders locators))) w = (Ok n, w1) ->
  (default 3 minResultCount <= Z.of_nat n)%Z ->
  pageInstance (CPageTextContent "body") w1 = (Ok None, w2) ->
  outcome (validate expectedKeywords minResultCount s w) =
  Thrown (new_Error ("Result validation failed: " +:+ null_property_message)).
Proof.
  intros Hall Hmin Hbody.
  pose proof (validateSearchResults_cases expectedKeywords minResultCount s w) as H.
  cbv zeta in H. rewrite Hall in H.
  apply Z.leb_le in Hmin. rewrite Hmin, Hbody in H. now rewrite H.
Qed.

(** X4. validateSearchResults only reads: it makes at most two calls, the
    count of the result headers and then the text content of the body,
    never a navigation, a click or an input, and it leaves the locals of
    its caller untouched. *)
Theorem validateSearchResults_only_reads {S}
    (expectedKeywords : list string) (minResultCount : option Z)
    (s : S) (w : World) :
  let r := validate expectedKeywords minResultCount s w in
  locals r = s /\
  (trace r).*1 `prefix_of`
    [ CAll (locator (resultHeaders locators)); CPageTextContent "body" ] /\
  Forall (fun ev : Event => is_read ev.1 = true) (trace r).
Proof.
  intros r.
  pose proof (validateSearchResults_cases expectedKeywords minResultCount s w) as H.
  cbv zeta in H. fold r in H.
  destruct (pageInstance resultHeaders_all w) as [[n|e] w1].
  - destruct (default 3 minResultCount <=? Z.of_nat n)%Z.
    + destruct (pageInstance (CPageTextContent "body") w1) as [[[text|]|e] w2];
        rewrite H; cbn [locals trace fmap list_fmap fst];
        (split; [reflexivity|]); (split; [done | repeat constructor]).
    + rewrite H. cbn [locals trace fmap list_fmap fst].
      split; [reflexivity|]. split; [|repeat constructor].
      now exists [CPageTextContent "body"].
  - rewrite H. cbn [locals trace fmap list_fmap fst].
    split; [reflexivity|]. split; [|repeat constructor].
    now exists [CPageTextContent "body"].
Qed.

(** X5. For a list of expected keywords without duplicates and without
    [__proto__], the result is valid exactly when at least half of the
    listed keywords occur, lower-cased, in the lower-cased page text
    ([includes] decides the occurrence, see [includes_spec]). *)
Theorem validateSearchResults_half_of_distinct_keywords {S}
    (expectedKeywords : list string) (minResultCount : option Z)
    (s : S) (w w1 w2 : World) (n : nat) (text : string) :
  pageInstance (CAll (locator (resultHeaders locators))) w = (Ok n, w1) ->
  (default 3 minResultCount <= Z.of_nat n)%Z ->
  pageInstance (CPageTextContent "body") w1 = (Ok (Some text), w2) ->
  NoDup expectedKeywords ->
  "__proto__" ∉ expectedKeywords ->
  exists v,
    outcome (validate expectedKeywords minResultCount s w) = Ok v /\
    (isValid v = true <->
     length expectedKeywords <=
     2 * length (filter (fun k => includes (toLowerCase text) (toLowerCase k) = true)
                   expectedKeywords)).
Proof.
  intros Hall Hmin Hbody Hnd Hproto.
  pose proof (validateSearchResults_cases expectedKeywords minResultCount s w) as H.
  cbv zeta in H. rewrite Hall in H.
  apply Z.leb_le in Hmin. rewrite Hmin, Hbody in H. rewrite H.
  eexists. split; [reflexivity|]. cbn [isValid].
  now rewrite Z.leb_le, Math_ceil_half_le, matched_count_NoDup by done.
Qed.

(** X6. The empty string as an expected keyword is always recorded as
    matched, whatever the page text is. *)
Theorem validateSearchResults_empty_keyword_matches {S}
    (expectedKeywords : list string) (minResultCount : option Z)
    (s : S) (w w1 w2 : World) (n : nat) (text : string) :
  pageInstance (CAll (locator (resultHeaders locators))) w = (Ok n, w1) ->
  (default 3 minResultCount <= Z.of_nat n)%Z ->
  pageInstance (CPageTextContent "body") w1 = (Ok (Some text), w2) ->
  EmptyString ∈ expectedKeywords ->
  exists v,
    outcome (validate expectedKeywords minResultCount s w) = Ok v /\
    keywordMatches v !! EmptyString = Some true.
Proof.
  intros Hall Hmin Hbody Hin.
  pose proof (validateSearchResults_cases expectedKeywords minResultCount s w) as H.
  cbv zeta in H. rewrite Hall in H.
  apply Z.leb_le in Hmin. rewrite Hmin, Hbody in H. rewrite H.
  eexists. split; [reflexivity|]. cbn [keywordMatches].
  rewrite record_all_lookup by discriminate. rewrite decide_True by done.
  cbn [toLowerCase]. now rewrite includes_empty.
Qed.

(** X7. Two expected keywords that differ only by case (other than
    [__proto__]) are recorded under their own spelling with the same
    value. *)
Theorem validateSearchResults_case_variants_agree {S}
    (expectedKeywords : list string) (minResultCount : option Z)
    (s : S) (w w1 w2 : World) (n : nat) (text : string) (k1 k2 : string) :
  pageInstance (CAll (locator (resultHeaders locators))) w = (Ok n, w1) ->
  (default 3 minResultCount <= Z.of_nat n)%Z ->
  pageInstance (CPageTextContent "body") w1 = (Ok (Some text), w2) ->
  k1 ∈ expectedKeywords -> k2 ∈ expectedKeywords ->
  k1 <> "__proto__" -> k2 <> "__proto__" ->
  toLowerCase k1 = toLowerCase k2 ->
  exists v b,
    outcome (validate expectedKeywords minResultCount s w) = Ok v /\
    keywordMatches v !! k1 = Some b /\
    keywordMatches v !! k2 = Some b.
Proof.
  intros Hall Hmin Hbody Hin1 Hin2 Hk1 Hk2 Hlow.
  pose proof (validateSearchResults_cases expectedKeywords minResultCount s w) as H.
  cbv zeta in H. rewrite Hall in H.
  apply Z.leb_le in Hmin. rewrite Hmin, Hbody in H. rewrite H.
  eexists _, _. split; [reflexivity|]. cbn [keywordMatches].
  rewrite !record_all_lookup by done. rewrite !decide_True by done.
  rewrite Hlow. split; reflexivity.
Qed.

(** *** More on extractResultData *)

Lemma extraction_reads (titles descriptions : Locator) (n_descriptions limit : nat)
    (i : nat) (tr : list Event) (l : list ResultEntry) :
  extraction titles descriptions n_descriptions limit i tr l ->
  length tr <= 2 * (limit - i) /\
  Forall (fun ev : Event =>
            exists j, j < limit /\
                      (ev.1 = CTextContent (nth titles j) \/
                       (ev.1 = CTextContent (nth descriptions j) /\ j < n_descriptions)))
    tr.
Proof.
  induction 1 as [i Hi|i e Hi|i t e Hi Hd|i t d tr l Hi Hd _ IH|i t tr l Hi Hd _ IH];
    simpl.
  - split; [lia | constructor].
  - split; [lia|]. repeat constructor. exists i. auto.
  - split; [lia|]. repeat constructor; exists i; auto.
  - destruct IH as [IH1 IH2]. split; [lia|].
    repeat (constructor; [exists i; auto|]). exact IH2.
  - destruct IH as [IH1 IH2]. split; [lia|].
    constructor; [exists i; auto | exact IH2].
Qed.

Lemma extraction_trimmed (titles descriptions : Locator) (n_descriptions limit : nat)
    (i : nat) (tr : list Event) (l : list ResultEntry) :
  extraction titles descriptions n_descriptions limit i tr l ->
  Forall (fun entry =>
            starts_with_space (title entry) = false /\
            ends_with_space (title entry) = false /\
            starts_with_space (description entry) = false /\
            ends_with_space (description entry) = false) l.
Proof.
  induction 1 as [i Hi|i e Hi|i t e Hi Hd|i t d tr l Hi Hd _ IH|i t tr l Hi Hd _ IH];
    try constructor; try exact IH; cbn [title description].
  - destruct (trim_spec (text_of t)) as (_ & H1 & H2).
    destruct (trim_spec (text_of d)) as (_ & H3 & H4). auto.
  - destruct (trim_spec (text_of t)) as (_ & H1 & H2). auto.
Qed.

(** X8. extractResultData leaves the locals of its caller untouched, only
    reads, and reads a bounded part of the page: two counts, then text
    reads of titles and descriptions at indices below ten and below the
    number of titles - at most 22 calls, however many results the page
    holds. *)
Theorem extractResultData_reads_first_ten {S} (s : S) (w : World) :
  let r := extractResultData pageInstance s w in
  locals r = s /\
  length (trace r) <= 22 /\
  Forall (fun ev : Event => is_read ev.1 = true) (trace r) /\
  (forall l i o, (CTextContent (nth l i), o) ∈ trace r ->
     i < 10 /\
     (l = locator (resultHeaders locators) \/
      l = locator (resultDescriptions locators)) /\
     exists n_titles,
       (CAll (locator (resultHeaders locators)), Ok (VNumber n_titles)) ∈ trace r /\
       i < n_titles).
Proof.
  intros r. pose proof (extractResultData_cases s w) as H. cbv zeta in H. fold r in H.
  destruct (pageInstance titles_all w) as [[n|e] w1].
  - destruct (pageInstance descriptions_all w1) as [[m|e] w2].
    + destruct H as (l & w' & tr & -> & Hext). cbn [trace locals].
      destruct (extraction_reads _ _ _ _ _ _ _ Hext) as [Hlen Hall].
      split; [reflexivity|]. split; [simpl; lia|]. split.
      * repeat (constructor; [reflexivity|]).
        eapply Forall_impl; [exact Hall|].
        intros ev (j & _ & [->|[-> _]]); reflexivity.
      * intros l0 i o Hin.
        apply elem_of_cons in Hin as [Heq|Hin]; [discriminate|].
        apply elem_of_cons in Hin as [Heq|Hin]; [discriminate|].
        rewrite Forall_forall in Hall.
        destruct (Hall _ Hin) as (j & Hj & Hc). cbn [fst] in Hc.
        assert (Hij : i = j /\ (l0 = locator (resultHeaders locators) \/
                                 l0 = locator (resultDescriptions locators))).
        { destruct Hc as [Hc|[Hc _]]; injection Hc as -> ->; auto. }
        destruct Hij as [-> Hl0]. split; [lia|]. split; [exact Hl0|].
        exists n. split; [left | lia].
    + rewrite H. cbn [trace locals]. split; [reflexivity|]. split; [simpl; lia|].
      split; [repeat constructor|].
      intros l0 i o Hin. repeat (apply elem_of_cons in Hin as [Heq|Hin]; [discriminate|]).
      inversion Hin.
  - rewrite H. cbn [trace locals]. split; [reflexivity|]. split; [simpl; lia|].
    split; [repeat constructor|].
    intros l0 i o Hin. repeat (apply elem_of_cons in Hin as [Heq|Hin]; [discriminate|]).
    inversion Hin.
Qed.

(** X9. Every entry returned by extractResultData has a title and a
    description without white space at either end. *)
Theorem extractResultData_entries_trimmed {S} (s : S) (w : World) :
  exists l,
    outcome (extractResultData pageInstance s w) = Ok l /\
    Forall (fun entry =>
              starts_with_space (title entry) = false /\
              ends_with_space (title entry) = false /\
              starts_with_space (description entry) = false /\
              ends_with_space (description entry) = false) l.
Proof.
  pose proof (extractResultData_cases s w) as H. cbv zeta in H.
  destruct (pageInstance titles_all w) as [[n|e] w1].
  - destruct (pageInstance descriptions_all w1) as [[m|e] w2].
    + destruct H as (l & w' & tr & -> & Hext). exists l.
      split; [reflexivity|]. eapply extraction_trimmed, Hext.
    + rewrite H. exists []. split; [reflexivity | constructor].
  - rewrite H. exists []. split; [reflexivity | constructor].
Qed.

(** *** Surface enforcement and the phases of navigation *)

Lemma ensureMainSearchPage_script_run {S} (s : S) (w : World) :
  exists w' tr (tbm visible : bool) (res : option JsError),
    _ensureMainSearchPage pageInstance s w = mkRun (Ok tt) s w' tr /\
    script_run (ensureMainSearchPage_script tbm visible) tr res /\
    (forall u, (CUrl, Ok (VString u)) ∈ tr -> tbm = includes u "tbm=") /\
    (forall t b, (CIsVisible (locator allTab_selector) t, Ok (VBool b)) ∈ tr ->
                 visible = b).
Proof.
  unfold _ensureMainSearchPage. run_method.
  page_step.
  2:{ exists w0, [(CUrl, Thrown e)], false, false, (Some e).
      split; [reflexivity|]. split; [apply script_abort|].
      split; intros; repeat match goal with
        | H : _ ∈ _ :: _ |- _ => apply elem_of_cons in H as [H|H]; [discriminate|]
        | H : _ ∈ [] |- _ => inversion H
        end. }
  destruct (includes a "tbm=") eqn:Htbm; run_simpl.
  all: repeat first
         [ page_step
         | match goal with
           | |- context [if ?b then _ else _] => destruct b eqn:?; run_simpl
           end ].
  all: repeat match goal with
         | |- context [mkRun (Ok ?x)] => is_var x; destruct x
         end.
  all: match goal with
       | |- exists w' tr _ _ _, mkRun _ _ ?w1 ?t = _ /\ _ =>
           match t with
           | context [(CIsVisible _ _, Ok (VBool true))] =>
               match t with
               | context [Thrown ?e] => exists w1, t, (includes a "tbm="), true, (Some e)
               | _ => exists w1, t, (includes a "tbm="), true, None
               end
           | _ =>
               match t with
               | context [Thrown ?e] => exists w1, t, (includes a "tbm="), false, (Some e)
               | _ => exists w1, t, (includes a "tbm="), false, None
               end
           end
       end.
  all: rewrite Htbm; unfold ensureMainSearchPage_script; cbn [app].
  all: split; [reflexivity|]; split;
       [ repeat first [ apply script_done | apply script_abort | apply script_ok ] |].
  all: split; intros;
       repeat match goal with
         | H : _ ∈ _ :: _ |- _ => apply elem_of_cons in H as [H|H]
         | H : _ ∈ [] |- _ => inversion H
         | H : (_, _) = (_, _) |- _ => first [ discriminate H | injection H as ? ]
         end; subst; try congruence; try reflexivity.
Qed.

(** X10. Surface enforcement never fails and leaves the locals untouched.
    It reads the URL, navigates to the engine's root and settles only when
    the URL contains [tbm=], probes the "All" tab, and clicks it and
    settles only when the tab is visible; a call that throws ends the step
    silently, with no further call. *)
Theorem ensureMainSearchPage_best_effort {S} (s : S) (w : World) :
  exists w' tr (tbm visible : bool) (res : option JsError),
    _ensureMainSearchPage pageInstance s w = mkRun (Ok tt) s w' tr /\
    script_run (ensureMainSearchPage_script tbm visible) tr res /\
    (forall u, (CUrl, Ok (VString u)) ∈ tr -> tbm = includes u "tbm=") /\
    (forall t b, (CIsVisible (locator allTab_selector) t, Ok (VBool b)) ∈ tr ->
                 visible = b).
Proof. apply ensureMainSearchPage_script_run. Qed.

(** X11. The phases of navigateToSearchEngine.  Its interactions are
    answered by the page in the order they were made, and the locals are
    untouched.  When it returns, its interactions are, in order, the
    navigation (until domcontentloaded, 30 s at most), the 2 s settle wait,
    the interactions of consent handling and those of surface enforcement.
    When it throws, the navigation or the settle wait threw a cause, nothing
    was called after it (no consent candidate was probed), and the error
    thrown is the [Error] whose message is "Navigation failed: " followed
    by the message of the cause. *)
Theorem navigateToSearchEngine_phases {S} (url : string) (s : S) (w : World) :
  let r := navigateToSearchEngine pageInstance url s w in
  locals r = s /\
  replay pageInstance (trace r).*1 w = (trace r, world r) /\
  match outcome r with
  | Ok _ =>
      exists consent surface (tbm visible : bool) (res : option JsError),
        trace r = (goto_engine url, Ok VUndefined)
                  :: (CWaitForTimeout 2000, Ok VUndefined) :: consent ++ surface /\
        consent_trace consentSelectors consent /\
        script_run (ensureMainSearchPage_script tbm visible) surface res
  | Thrown e =>
      exists cause,
        e = new_Error ("Navigation failed: " +:+ message cause) /\
        (trace r = [(goto_engine url, Thrown cause)] \/
         trace r = [(goto_engine url, Ok VUndefined);
                    (CWaitForTimeout 2000, Thrown cause)])
  end.
Proof.
  intros r. split; [|split; [exact (navigateToSearchEngine_faithful url s w)|]];
    subst r; unfold navigateToSearchEngine; run_method.
  - page_step; [|reflexivity]. page_step; [|reflexivity].
    destruct (consent_loop_trace consentSelectors s w1) as (w2 & trc & Hc & Htrc).
    unfold _handleConsentDialogs. rewrite Hc; run_simpl.
    now destruct (ensureMainSearchPage_script_run s w2)
      as (w3 & tre & tbm & visible & res & -> & Hrun & _ & _).
  - page_step; [|exists e; split; [reflexivity | now left]].
    page_step; [|exists e; split; [reflexivity | now right]].
    destruct (consent_loop_trace consentSelectors s w1) as (w2 & trc & Hc & Htrc).
    unfold _handleConsentDialogs. rewrite Hc; run_simpl.
    destruct (ensureMainSearchPage_script_run s w2)
      as (w3 & tre & tbm & visible & res & -> & Hrun & _ & _); run_simpl.
    exists trc, tre, tbm, visible, res.
    rewrite app_nil_r. auto.
Qed.

(** *** The assertions of the test suite *)

Lemma at_least_half_spec (c n : nat) :
  n <> 0 -> (at_least_half (js_divide c n) = true <-> n <= 2 * c).
Proof.
  intros Hn. destruct n as [|n]; [done|]. cbn [js_divide at_least_half].
  rewrite Qle_bool_iff. unfold Qle. cbn [Qnum Qden].
  rewrite <- Pos.of_nat_succ, Zpos_P_of_succ_nat. lia.
Qed.

(** X14. The suite's assertion that at least half of the keywords were
    found, made on a returned result: for a non-empty list of expected
    keywords it passes exactly when the result is valid; for the empty list
    the rate is NaN and the assertion fails, although the result is
    valid. *)
Theorem keywordSuccessRate_against_isValid {S}
    (expectedKeywords : list string) (minResultCount : option Z)
    (s : S) (w : World) (v : ValidationResult) :
  outcome (validate expectedKeywords minResultCount s w) = Ok v ->
  (expectedKeywords <> [] ->
   at_least_half (keywordSuccessRate v expectedKeywords) = isValid v) /\
  (expectedKeywords = [] ->
   keywordSuccessRate v expectedKeywords = NaN /\
   at_least_half (keywordSuccessRate v expectedKeywords) = false /\
   isValid v = true).
Proof.
  intros Hv.
  pose proof (validateSearchResults_cases expectedKeywords minResultCount s w) as H.
  cbv zeta in H.
  destruct (pageInstance resultHeaders_all w) as [[n|e] w1];
    [|rewrite H in Hv; discriminate].
  destruct (default 3 minResultCount <=? Z.of_nat n)%Z eqn:Hmin;
    [|rewrite H in Hv; discriminate].
  destruct (pageInstance (CPageTextContent "body") w1) as [[[text|]|e] w2];
    rewrite H in Hv; try discriminate.
  injection Hv as <-. unfold keywordSuccessRate. cbn [keywordMatches isValid].
  rewrite Object_values_true_count. split.
  - intros Hne. apply eq_true_iff_eq.
    rewrite at_least_half_spec by (now destruct expectedKeywords).
    now rewrite Z.leb_le, Math_ceil_half_le.
  - intros ->. cbn [record_all fold_left length]. rewrite matched_count_empty.
    repeat split.
Qed.

(** X15. When the extraction degrades to no entry - counting the titles or
    the descriptions throws, or the page has no title - extractResultData
    returns normally and the suite's relevance check on its result is false
    for every term and every list of keywords. *)
Theorem searchTermsInResults_fails_without_entries {S} (s : S) (w : World) :
  (exists e w1, pageInstance (CAll (locator (resultHeaders locators))) w
                = (Thrown e, w1)) \/
  (exists n w1 e w2,
      pageInstance (CAll (locator (resultHeaders locators))) w = (Ok n, w1) /\
      pageInstance (CAll (locator (resultDescriptions locators))) w1
      = (Thrown e, w2)) \/
  (exists w1 m w2,
      pageInstance (CAll (locator (resultHeaders locators))) w = (Ok 0, w1) /\
      pageInstance (CAll (locator (resultDescriptions locators))) w1 = (Ok m, w2)) ->
  exists l,
    outcome (extractResultData pageInstance s w) = Ok l /\
    forall term expectedKeywords,
      searchTermsInResults term expectedKeywords l = false.
Proof.
  intros Hcause.
  pose proof (extractResultData_cases s w) as H. cbv zeta in H.
  destruct Hcause as [(e & w1 & Ht)|[(n & w1 & e & w2 & Ht & Hd)|(w1 & m & w2 & Ht & Hd)]].
  - rewrite Ht in H. rewrite H. now exists [].
  - rewrite Ht, Hd in H. rewrite H. now exists [].
  - rewrite Ht, Hd in H. destruct H as (l & w' & tr & -> & Hext).
    destruct (extraction_length _ _ _ _ _ _ _ Hext) as [Hlen _].
    destruct l; [|simpl in Hlen; lia]. now exists [].
Qed.

(** *** The surface check of executeSearch *)

(** Case analysis on the position of an event in a trace that is written
    out. *)
Ltac at_index i H :=
  repeat match type of H with
         | (_ :: _) !! i = _ => destruct i as [|i]; simpl in H
         end;
  try (rewrite lookup_nil in H).

(** X18. The order of the surface check of executeSearch.  A navigation to
    the engine's root is made only after a URL containing [tbm=isch] was
    read, at an earlier position of the trace.  When such a URL was read,
    the navigation is attempted as the very next call; and the input is
    clicked only as the third call after the read, with the navigation and
    the wait for the textarea, both succeeded, between them.  When the URL
    read does not contain [tbm=isch], the click, if made, is the very next
    call. *)
Theorem executeSearch_leaves_image_search {S} (searchTerm : string)
    (s : S) (w : World) :
  let r := executeSearch pageInstance searchTerm s w in
  (forall i o, trace r !! i = Some (CGoto "https://www.google.com" None, o) ->
     exists j u, j < i /\ trace r !! j = Some (CUrl, Ok (VString u)) /\
                 includes u "tbm=isch" = true) /\
  (forall j u, trace r !! j = Some (CUrl, Ok (VString u)) ->
     includes u "tbm=isch" = true ->
     (exists o, trace r !! (j + 1) = Some (CGoto "https://www.google.com" None, o)) /\
     (forall i o, trace r !! i = Some (CClick searchInput, o) ->
        i = j + 3 /\
        trace r !! (j + 1) = Some (CGoto "https://www.google.com" None, Ok VUndefined) /\
        trace r !! (j + 2) =
        Some (CWaitForSelector textarea_q {| wait_timeout := 5000; wait_state := None |},
              Ok VUndefined))) /\
  (forall j u, trace r !! j = Some (CUrl, Ok (VString u)) ->
     includes u "tbm=isch" = false ->
     forall i o, trace r !! i = Some (CClick searchInput, o) -> i = j + 1).
Proof.
  intros r; subst r. unfold executeSearch. run_method.
  page_step; [page_step; [destruct (includes a0 "tbm=isch") eqn:Hisch; run_simpl;
                          repeat page_step|]|].
  all: repeat apply conj.
  all: try (intros i o Hi; at_index i Hi; try discriminate Hi;
            exists 1, a0; (split; [lia|]); (split; [reflexivity | exact Hisch])).
  all: intros j u Hj Hu; at_index j Hj; try discriminate Hj;
       injection Hj as <-; try congruence.
  all: try (split; [eexists; reflexivity|]).
  all: intros i o Hi; at_index i Hi; try discriminate Hi;
       repeat split; reflexivity.
Qed.

(** *** The methods as steps of a caller *)

Lemma executeSearch_locals {S} (searchTerm : string) (s : S) (w : World) :
  locals (executeSearch pageInstance searchTerm s w) = s.
Proof.
  now destruct (executeSearch_script_run searchTerm s w) as (_ & _ & _ & _ & H & _).
Qed.

Lemma validateSearchResults_locals {S} (expectedKeywords : list string)
    (minResultCount : option Z) (s : S) (w : World) :
  locals (validate expectedKeywords minResultCount s w) = s.
Proof.
  pose proof (validateSearchResults_cases expectedKeywords minResultCount s w) as H.
  cbv zeta in H.
  destruct (pageInstance resultHeaders_all w) as [[n|e] w1]; [|now rewrite H].
  destruct (default 3 minResultCount <=? Z.of_nat n)%Z; [|now rewrite H].
  destruct (pageInstance (CPageTextContent "body") w1) as [[[text|]|e] w2];
    now rewrite H.
Qed.

Lemma validateSearchResults_Ok_inv {S} (expectedKeywords : list string)
    (minResultCount : option Z) (s : S) (w : World) (v : ValidationResult) :
  outcome (validate expectedKeywords minResultCount s w) = Ok v ->
  exists n text,
    (default 3 minResultCount <= Z.of_nat n)%Z /\
    v = {| totalResults := n;
           keywordMatches := record_all (toLowerCase text) expectedKeywords ∅;
           isValid :=
             (Math_ceil (inject_Z (Z.of_nat (length expectedKeywords)) / 2)
              <=? Z.of_nat (matched_count
                              (record_all (toLowerCase text) expectedKeywords ∅)))%Z |}.
Proof.
  intros Hv.
  pose proof (validateSearchResults_cases expectedKeywords minResultCount s w) as H.
  cbv zeta in H.
  destruct (pageInstance resultHeaders_all w) as [[n|e] w1];
    [|rewrite H in Hv; discriminate].
  destruct (default 3 minResultCount <=? Z.of_nat n)%Z eqn:Hmin;
    [|rewrite H in Hv; discriminate].
  destruct (pageInstance (CPageTextContent "body") w1) as [[[text|]|e] w2];
    rewrite H in Hv; try discriminate.
  injection Hv as <-. exists n, text. split; [now apply Z.leb_le | reflexivity].
Qed.

Lemma extractResultData_returns {S} (s : S) (w : World) :
  exists l w' tr, extractResultData pageInstance s w = mkRun (Ok l) s w' tr.
Proof.
  pose proof (extractResultData_cases s w) as H. cbv zeta in H.
  destruct (pageInstance titles_all w) as [[n|e] w1]; [|eauto].
  destruct (pageInstance descriptions_all w1) as [[m|e] w2]; [|eauto].
  destruct H as (l & w' & tr & -> & _). eauto.
Qed.

End Properties.

(** ** Evidence capture *)

Lemma length_append (a b : string) :
  String.length (a +:+ b) = String.length a + String.length b.
Proof. induction a as [|c a IH]; simpl; [reflexivity | now rewrite IH]. Qed.

Lemma append_inj_l (a x y : string) : a +:+ x = a +:+ y -> x = y.
Proof. induction a as [|c a IH]; simpl; intros H; [exact H | injection H; auto]. Qed.

(** Two concatenations with tails of the same length agree part by part. *)
Lemma append_inj_tail (a c b d : string) :
  a +:+ b = c +:+ d -> String.length b = String.length d -> a = c /\ b = d.
Proof.
  revert c. induction a as [|x a IH]; intros [|y c] H Hlen; simpl in H.
  - now split.
  - apply (f_equal String.length) in H. simpl in H.
    rewrite !length_append in H. simpl in H. lia.
  - apply (f_equal String.length) in H. simpl in H.
    rewrite !length_append in H. simpl in H. lia.
  - injection H as -> H. destruct (IH c H Hlen) as [-> ->]. now split.
Qed.

Lemma replace_colon_dot_length (s : string) :
  String.length (replace_colon_dot s) = String.length s.
Proof. induction s as [|c s IH]; simpl; [reflexivity | now rewrite IH]. Qed.

Lemma includes_unit_cons (x c : ascii) (s : string) :
  includes (String x s) (String c EmptyString) =
  Ascii.eqb x c || includes s (String c EmptyString).
Proof. simpl. now destruct (Ascii.eqb x c). Qed.

Lemma includes_unit_app (c : ascii) (a b : string) :
  includes (a +:+ b) (String c EmptyString) =
  includes a (String c EmptyString) || includes b (String c EmptyString).
Proof.
  induction a as [|x a IH].
  - reflexivity.
  - change (String x a +:+ b) with (String x (a +:+ b)).
    rewrite !includes_unit_cons, IH. now rewrite orb_assoc.
Qed.

Lemma replace_colon_dot_safe (s : string) :
  includes (replace_colon_dot s) ":" = false /\
  includes (replace_colon_dot s) "." = false.
Proof.
  induction s as [|c s [IH1 IH2]]; [now split|].
  cbn [replace_colon_dot]. rewrite !includes_unit_cons, IH1, IH2, !orb_false_r.
  destruct (Ascii.eqb_spec c ":") as [->|Hc]; [now split|].
  destruct (Ascii.eqb_spec c ".") as [->|Hd]; [now split|].
  cbn [orb]. split; now apply Ascii.eqb_neq.
Qed.

Lemma digit_is_kept (c : ascii) :
  is_digit c = true -> Ascii.eqb c ":" || Ascii.eqb c "." = false.
Proof.
  destruct c as [[] [] [] [] [] [] [] []]; vm_compute; congruence.
Qed.

(** On strings of one shape (digits at the same places, the same
    literals elsewhere) the replacement loses nothing. *)
Lemma replace_colon_dot_inj (p : list IsoClass) (s1 s2 : string) :
  matches_pattern p s1 = true ->
  matches_pattern p s2 = true ->
  replace_colon_dot s1 = replace_colon_dot s2 ->
  s1 = s2.
Proof.
  revert s1 s2. induction p as [|k p IH]; intros [|c1 s1] [|c2 s2] H1 H2 Heq;
    try reflexivity; try discriminate; try (destruct k; discriminate).
  cbn [replace_colon_dot] in Heq. injection Heq as Hc Hs.
  destruct k as [|l]; cbn [matches_pattern] in H1, H2;
    apply andb_true_iff in H1 as [Hc1 H1]; apply andb_true_iff in H2 as [Hc2 H2].
  - rewrite (digit_is_kept _ Hc1), (digit_is_kept _ Hc2) in Hc.
    subst c2. f_equal. now apply IH.
  - apply Ascii.eqb_eq in Hc1, Hc2. subst c1 c2. f_equal. now apply IH.
Qed.

Lemma matches_pattern_length (p : list IsoClass) (s : string) :
  matches_pattern p s = true -> String.length s = length p.
Proof.
  revert s. induction p as [|k p IH]; intros [|c s] H; try reflexivity;
    try discriminate; try (destruct k; discriminate).
  destruct k; cbn [matches_pattern] in H; apply andb_true_iff in H as [_ H];
    simpl; f_equal; now apply IH.
Qed.

(** X12. In the name of an evidence file the time stamp keeps its length
    and holds neither a colon nor a period; a screenshot name without a
    colon gives a file name without a colon. *)
Theorem evidence_fileName_has_no_colon (screenshotName iso : string) :
  String.length (replace_colon_dot iso) = String.length iso /\
  includes (replace_colon_dot iso) ":" = false /\
  includes (replace_colon_dot iso) "." = false /\
  includes (evidence_fileName screenshotName iso) ":" = includes screenshotName ":".
Proof.
  destruct (replace_colon_dot_safe iso) as [Hc Hd].
  split; [apply replace_colon_dot_length|]. split; [exact Hc|]. split; [exact Hd|].
  unfold evidence_fileName. rewrite !includes_unit_app, Hc.
  now rewrite orb_false_r.
Qed.

Section EvidenceProperties.

Context {World Buffer : Type}.
Variable Date_toISOString : World -> string * World.
Variable screenshot : ScreenshotArgs -> World -> Outcome Buffer * World.

Abbreviation capture := (captureEvidence Date_toISOString screenshot).

(** Every completion of captureEvidence. *)
Lemma captureEvidence_cases (screenshotName : string) (evidenceFolder : option string)
    (w : World) :
  let iso := (Date_toISOString w).1 in
  let filePath :=
    evidence_filePath (default "evidence" evidenceFolder)
      (evidence_fileName screenshotName iso) in
  match screenshot (screenshotOptions filePath) (Date_toISOString w).2 with
  | (Ok _, w2) => capture screenshotName evidenceFolder w = (Ok filePath, w2)
  | (Thrown e, w2) => capture screenshotName evidenceFolder w = (Thrown e, w2)
  end.
Proof.
  unfold captureEvidence. destruct (Date_toISOString w) as [iso w1]. cbn [fst snd].
  now destruct (screenshot _ w1) as [[b|e] w2].
Qed.

(** X13. Evidence files do not collide: when two captures into the same
    folder, made at instants of the four-digit-year ISO shape, return the
    same path, they were made under the same screenshot name at the same
    instant. *)
Theorem captureEvidence_paths_do_not_collide
    (name1 name2 : string) (evidenceFolder : option string)
    (w1 w1' w2 w2' : World) (path : string) :
  capture name1 evidenceFolder w1 = (Ok path, w1') ->
  capture name2 evidenceFolder w2 = (Ok path, w2') ->
  iso_format (Date_toISOString w1).1 = true ->
  iso_format (Date_toISOString w2).1 = true ->
  name1 = name2 /\ (Date_toISOString w1).1 = (Date_toISOString w2).1.
Proof.
  intros H1 H2 F1 F2.
  pose proof (captureEvidence_cases name1 evidenceFolder w1) as C1.
  pose proof (captureEvidence_cases name2 evidenceFolder w2) as C2.
  cbv zeta in C1, C2.
  destruct (screenshot _ (Date_toISOString w1).2) as [[b1|e1] v1];
    rewrite C1 in H1; [|discriminate].
  destruct (screenshot _ (Date_toISOString w2).2) as [[b2|e2] v2];
    rewrite C2 in H2; [|discriminate].
  injection H1 as H1 _. injection H2 as H2 _. rewrite <- H2 in H1. clear H2.
  unfold evidence_filePath, evidence_fileName in H1.
  apply append_inj_l, append_inj_l in H1.
  apply append_inj_tail in H1 as [Hn H1].
  - split; [exact Hn|]. apply append_inj_l in H1.
    apply append_inj_tail in H1 as [H1 _]; [|reflexivity].
    eapply replace_colon_dot_inj; eauto.
  - rewrite !length_append, !replace_colon_dot_length.
    apply matches_pattern_length in F1, F2. unfold iso_format in *.
    now rewrite F1, F2.
Qed.

End EvidenceProperties.

(** ** The test suite *)

Lemma toLowerCase_app (a b : string) :
  toLowerCase (a +:+ b) = toLowerCase a +:+ toLowerCase b.
Proof. induction a as [|c a IH]; simpl; [reflexivity | now rewrite IH]. Qed.

Lemma split_spaces_leading (rest cur : string) :
  cur ∈ split_spaces (String " " rest) cur.
Proof. simpl. left. Qed.

Lemma split_spaces_trailing (pre cur : string) :
  EmptyString ∈ split_spaces (pre +:+ " ") cur.
Proof.
  revert cur. induction pre as [|c pre IH]; intros cur.
  - simpl. right. left.
  - change (String c pre +:+ " ") with (String c (pre +:+ " ")).
    cbn [split_spaces]. destruct (Ascii.eqb c " "); [right|]; apply IH.
Qed.

Lemma split_spaces_double (pre post cur : string) :
  EmptyString ∈ split_spaces (pre +:+ "  " +:+ post) cur.
Proof.
  revert cur. induction pre as [|c pre IH]; intros cur.
  - simpl. right. left.
  - change (String c pre +:+ "  " +:+ post) with (String c (pre +:+ "  " +:+ post)).
    cbn [split_spaces]. destruct (Ascii.eqb c " "); [right|]; apply IH.
Qed.

(** A term that is empty, starts or ends with a space, or holds two spaces
    in a row has the empty string among its words. *)
Lemma empty_search_word (term : string) :
  term = EmptyString \/
  (exists rest, term = " " +:+ rest) \/
  (exists pre, term = pre +:+ " ") \/
  occurs_in "  " term ->
  EmptyString ∈ split_space (toLowerCase term).
Proof.
  unfold split_space.
  intros [->|[(rest & ->)|[(pre & ->)|(pre & post & ->)]]].
  - simpl. left.
  - apply split_spaces_leading.
  - rewrite toLowerCase_app. apply split_spaces_trailing.
  - rewrite !toLowerCase_app. apply split_spaces_double.
Qed.

(** X16. The suite's relevance check holds for every non-empty list of
    entries, whatever they say, when the term is empty, starts or ends with
    a space or holds two spaces in a row (the empty word is in every text),
    and likewise when the empty string is an expected keyword. *)
Theorem searchTermsInResults_trivial_on_empty_word
    (term : string) (expectedKeywords : list string) (resultData : list ResultEntry) :
  (term = EmptyString \/
   (exists rest, term = " " +:+ rest) \/
   (exists pre, term = pre +:+ " ") \/
   occurs_in "  " term) \/
  EmptyString ∈ expectedKeywords ->
  resultData <> [] ->
  searchTermsInResults term expectedKeywords resultData = true.
Proof.
  intros Hempty Hne. destruct resultData as [|result rest]; [done|].
  unfold searchTermsInResults. cbn [existsb].
  apply orb_true_iff. left. apply orb_true_iff.
  destruct Hempty as [Hterm|Hkw].
  - left. apply existsb_exists. exists EmptyString.
    split; [|now rewrite includes_empty].
    apply list_elem_of_In. now apply empty_search_word.
  - right. apply existsb_exists. exists EmptyString.
    split; [now apply list_elem_of_In|]. cbn [toLowerCase]. now rewrite includes_empty.
Qed.

Lemma underscore_is_no_space : is_space "_" = false.
Proof. reflexivity. Qed.

Lemma replace_spaces_no_space (s : string) (in_run : bool) :
  no_space (replace_spaces s in_run) = true.
Proof.
  revert in_run. induction s as [|c s IH]; intros in_run; [reflexivity|].
  cbn [replace_spaces]. destruct (is_space c) eqn:Hc.
  - destruct in_run; [apply IH|]. cbn [no_space].
    now rewrite underscore_is_no_space, IH.
  - cbn [no_space]. now rewrite Hc, IH.
Qed.

Lemma replace_spaces_id (s : string) (in_run : bool) :
  no_space s = true -> replace_spaces s in_run = s.
Proof.
  revert in_run. induction s as [|c s IH]; intros in_run H; [reflexivity|].
  cbn [no_space] in H. apply andb_true_iff in H as [Hc H].
  cbn [replace_spaces]. apply negb_true_iff in Hc. rewrite Hc. f_equal. now apply IH.
Qed.

(** X17. The names the suite derives from a term or a title, by replacing
    every run of white space with an underscore, hold no white space; a
    term without white space is kept as it is, so the replacement applied
    twice is the replacement applied once. *)
Theorem replace_whitespace_leaves_none (s : string) :
  no_space (replace_whitespace s) = true /\
  (no_space s = true -> replace_whitespace s = s) /\
  replace_whitespace (replace_whitespace s) = replace_whitespace s.
Proof.
  unfold replace_whitespace. split; [apply replace_spaces_no_space|].
  split; [apply replace_spaces_id|].
  apply replace_spaces_id, replace_spaces_no_space.
Qed.

(** ** One test case *)
Section TestCaseProperties.

Context {World Buffer : Type}.
Variable pageInstance : forall c : Call, World -> Outcome (Res c) * World.
Variable toBeGreaterThanOrEqual_message : nat -> Z -> string.
Variable null_property_message : string.
Variable Date_toISOString : World -> string * World.
Variable screenshot : ScreenshotArgs -> World -> Outcome Buffer * World.
Variable Date_now : World -> Z * World.
Variable testInfo_attach : string -> Buffer -> string -> World -> Outcome unit * World.
Variable rate_message : JsQuotient -> string.
Variable toBe_message : string.
Variable minResultCount : Z.
Variable screenshotPath : option string.

Abbreviation phases :=
  (test_phases pageInstance toBeGreaterThanOrEqual_message null_property_message
     Date_toISOString screenshot Date_now testInfo_attach rate_message toBe_message
     minResultCount screenshotPath).
Abbreviation failed :=
  (test_failed Date_toISOString screenshot Date_now screenshotPath).
Abbreviation test_case :=
  (automated_test_case pageInstance toBeGreaterThanOrEqual_message
     null_property_message Date_toISOString screenshot Date_now testInfo_attach
     rate_message toBe_message minResultCount screenshotPath).

Abbreviation validate_results :=
  (validateSearchResults pageInstance toBeGreaterThanOrEqual_message
     null_property_message).
Abbreviation capture_evidence := (captureEvidence Date_toISOString screenshot).
Abbreviation report_screenshot :=
  (screenshot {| shot_path := None; shot_fullPage := true; shot_type := None |}).

(** What the phases guarantee when they complete, and that they leave
    [testResults] as it was when they throw. *)
Lemma test_phases_spec (testStartTime : Z) (term : string)
    (expectedKeywords : list string) (s : list TestRecord) (w : World) :
  let r := phases testStartTime term expectedKeywords s w in
  match outcome r with
  | Ok _ =>
      exists w1 tr1 path w2 buffer w3 w4 v w5 tr5 l w6 tr6 t1 w7,
        executeSearch pageInstance term s w = mkRun (Ok tt) s w1 tr1 /\
        capture_evidence ("test_results_" +:+ replace_whitespace term) screenshotPath w1
        = (Ok path, w2) /\
        report_screenshot w2 = (Ok buffer, w3) /\
        testInfo_attach ("Search Results - " +:+ term) buffer "image/png" w3
        = (Ok tt, w4) /\
        validate_results expectedKeywords (Some minResultCount) s w4
        = mkRun (Ok v) s w5 tr5 /\
        extractResultData pageInstance s w5 = mkRun (Ok l) s w6 tr6 /\
        Date_now w6 = (t1, w7) /\
        r = mkRun (Ok tt)
              (s ++ [PASSED term (t1 - testStartTime) (totalResults v)
                       (keywordMatches v) path (take 3 l)])
              w7 (tr1 ++ tr5 ++ tr6) /\
        path = evidence_filePath (default "evidence" screenshotPath)
                 (evidence_fileName ("test_results_" +:+ replace_whitespace term)
                    (Date_toISOString w1).1) /\
        (minResultCount <= Z.of_nat (totalResults v))%Z /\
        isValid v = true /\
        expectedKeywords <> [] /\
        l <> [] /\
        searchTermsInResults term expectedKeywords l = true
  | Thrown _ => locals r = s
  end.
Proof.
  intros r; subst r.
  unfold test_phases, bind, lift, read_clock, push_record,
    expect_toBeGreaterThanOrEqual, expect_at_least_half, expect_toBe_true, ret, throw.
  pose proof (executeSearch_locals pageInstance term s w) as Hs1.
  destruct (executeSearch pageInstance term s w) as [[[]|e1] s1 w1 tr1];
    cbn [locals] in Hs1; subst s1; cbv beta iota; [|reflexivity].
  pose proof (captureEvidence_cases Date_toISOString screenshot
                ("test_results_" +:+ replace_whitespace term) screenshotPath w1) as Hcap.
  cbv zeta in Hcap.
  destruct (screenshot _ (Date_toISOString w1).2) as [[b|e2] w2];
    rewrite Hcap; cbv beta iota; [|reflexivity].
  destruct (screenshot _ w2) as [[buffer|e3] w3] eqn:Hshot; cbv beta iota;
    [|reflexivity].
  destruct (testInfo_attach _ buffer _ w3) as [[[]|e4] w4] eqn:Hattach; cbv beta iota;
    [|reflexivity].
  pose proof (validateSearchResults_locals pageInstance toBeGreaterThanOrEqual_message
                null_property_message expectedKeywords (Some minResultCount) s w4) as Hs5.
  pose proof (validateSearchResults_Ok_inv pageInstance toBeGreaterThanOrEqual_message
                null_property_message expectedKeywords (Some minResultCount) s w4) as Hv.
  destruct (validateSearchResults _ _ _ expectedKeywords (Some minResultCount) s w4)
    as [[v|e5] s5 w5 tr5] eqn:Hval; cbn [locals outcome] in Hs5, Hv; subst s5;
    cbv beta iota; [|reflexivity].
  destruct (Hv v eq_refl) as (n & text & Hmin & Hveq). clear Hv.
  destruct (extractResultData_returns pageInstance s w5) as (l & w6 & tr6 & Hext).
  rewrite Hext. cbv beta iota.
  destruct (minResultCount <=? Z.of_nat (totalResults v))%Z eqn:Hcount;
    cbv beta iota; [|reflexivity].
  destruct (at_least_half (keywordSuccessRate v expectedKeywords)) eqn:Hrate;
    cbv beta iota; [|reflexivity].
  destruct (searchTermsInResults term expectedKeywords l) eqn:Hrel;
    cbv beta iota; [|reflexivity].
  destruct (Date_now w6) as [t1 w7] eqn:Hnow. cbn [outcome locals app].
  exists w1, tr1. eexists. exists w2, buffer, w3, w4, v, w5, tr5, l, w6, tr6, t1, w7.
  split; [reflexivity|]. split; [exact Hcap|].
  split; [first [exact Hshot | reflexivity]|].
  split; [first [exact Hattach | reflexivity]|].
  split; [exact Hval|]. split; [exact Hext|].
  split; [exact Hnow|]. split; [now rewrite app_nil_r|]. split; [reflexivity|].
  split; [now apply Z.leb_le|].
  assert (Hne : expectedKeywords <> []).
  { intros ->. subst v. unfold keywordSuccessRate in Hrate.
    cbn [keywordMatches record_all fold_left length] in Hrate.
    rewrite Object_values_true_count, matched_count_empty in Hrate. discriminate. }
  split; [|split; [exact Hne|split; [|exact Hrel]]].
  - subst v. unfold keywordSuccessRate in Hrate. cbn [keywordMatches isValid] in *.
    rewrite Object_values_true_count in Hrate.
    apply at_least_half_spec in Hrate; [|now destruct expectedKeywords].
    now apply Z.leb_le, Math_ceil_half_le.
  - intros ->. unfold searchTermsInResults in Hrel. discriminate.
Qed.

(** X19. What a passed test case guarantees.  When the callback returns,
    every phase of it completed, each started in the state the one before
    it had left: the search, the capture of the evidence (which returned
    the path of the evidence file), the screenshot for the report and its
    attachment, the validation (which returned [v]) and the extraction
    (which returned [l]).  [testResults] has grown by exactly one record,
    a PASSED one, holding the term, the time between the two readings of
    the clock, the total and the keywordMatches of [v], the path the
    capture returned and at most the first three entries of [l]; the
    interactions with the page are those of the search, the validation and
    the extraction, in this order.  Moreover the total of [v] reached the
    minimum, [v] is valid, the list of expected keywords is not empty, and
    [l] holds at least one entry, for which the relevance check held. *)
Theorem automated_test_case_passed (term : string) (expectedKeywords : list string)
    (s : list TestRecord) (w : World) :
  outcome (test_case term expectedKeywords s w) = Ok tt ->
  exists t0 w0 w1 tr1 path w2 buffer w3 w4 v w5 tr5 l w6 tr6 t1 w7,
    Date_now w = (t0, w0) /\
    executeSearch pageInstance term s w0 = mkRun (Ok tt) s w1 tr1 /\
    capture_evidence ("test_results_" +:+ replace_whitespace term) screenshotPath w1
    = (Ok path, w2) /\
    report_screenshot w2 = (Ok buffer, w3) /\
    testInfo_attach ("Search Results - " +:+ term) buffer "image/png" w3
    = (Ok tt, w4) /\
    validate_results expectedKeywords (Some minResultCount) s w4
    = mkRun (Ok v) s w5 tr5 /\
    extractResultData pageInstance s w5 = mkRun (Ok l) s w6 tr6 /\
    Date_now w6 = (t1, w7) /\
    test_case term expectedKeywords s w =
    mkRun (Ok tt)
      (s ++ [PASSED term (t1 - t0) (totalResults v) (keywordMatches v) path
               (take 3 l)])
      w7 (tr1 ++ tr5 ++ tr6) /\
    path = evidence_filePath (default "evidence" screenshotPath)
             (evidence_fileName ("test_results_" +:+ replace_whitespace term)
                (Date_toISOString w1).1) /\
    (minResultCount <= Z.of_nat (totalResults v))%Z /\
    isValid v = true /\
    expectedKeywords <> [] /\
    l <> [] /\
    searchTermsInResults term expectedKeywords l = true.
Proof.
  unfold automated_test_case, bind, read_clock.
  destruct (Date_now w) as [t0 w0]. unfold try_catch.
  pose proof (test_phases_spec t0 term expectedKeywords s w0) as H. cbv zeta in H.
  destruct (phases t0 term expectedKeywords s w0) as [[[]|e] s1 w1 tr1];
    cbn [outcome locals] in *.
  - intros _.
    destruct H as (w1' & tr1' & path & w2 & buffer & w3 & w4 & v & w5 & tr5 & l
                   & w6 & tr6 & t1 & w7 & H1 & H2 & H3 & H4 & H5 & H6 & H7 & Hr & Hrest).
    injection Hr as -> -> ->. cbn [app].
    exists t0, w0, w1', tr1', path, w2, buffer, w3, w4, v, w5, tr5, l, w6, tr6, t1, w7.
    repeat (split; [first [reflexivity | assumption]|]). exact Hrest.
  - destruct (failed t0 term e s1 w1) as [o2 s2 w2 tr2] eqn:Hf.
    cbn [outcome]. intros ->.
    unfold test_failed, bind, lift, read_clock, push_record, throw in Hf.
    destruct (captureEvidence _ _ _ _ w1) as [[p|e'] w'];
      [destruct (Date_now w')|]; discriminate.
Qed.


End TestCaseProperties.

(** ** The methods on concrete pages *)

Abbreviation validate_on st keywords minimum :=
  (validateSearchResults Browser.page Browser.expect_message Browser.null_message
     keywords minimum tt st).

(** The scenario of the specification: three keywords, two of them on the
    page, five results. *)
Example valletta_scenario :
  outcome (validate_on Pages.valletta_results ["malta"; "capital"; "unesco"] None) =
  Ok {| totalResults := 5;
        keywordMatches := {[ "malta" := true; "capital" := true; "unesco" := false ]};
        isValid := true |}.
Proof. vm_compute. reflexivity. Qed.

(** No keyword: nothing is recorded and the result is valid. *)
Example no_keyword :
  outcome (validate_on Pages.valletta_results [] None) =
  Ok {| totalResults := 5; keywordMatches := ∅; isValid := true |}.
Proof. vm_compute. reflexivity. Qed.

(** The keyword MALTA is found in a page text that has "Malta". *)
Example MALTA_matches :
  outcome (validate_on Pages.valletta_results ["MALTA"] None) =
  Ok {| totalResults := 5; keywordMatches := {[ "MALTA" := true ]}; isValid := true |}.
Proof. vm_compute. reflexivity. Qed.

(** Witness of C1 on the scenario of the specification. *)
Lemma validateSearchResults_majority_threshold_witness :
  exists v,
    outcome (validate_on Pages.valletta_results ["malta"; "capital"; "unesco"] None)
      = Ok v /\
    totalResults v = 5 /\
    (isValid v = true <->
     (Math_ceil (inject_Z (Z.of_nat (length ["malta"; "capital"; "unesco"])) / 2)
      <= Z.of_nat (matched_count (keywordMatches v)))%Z).
Proof.
  apply (validateSearchResults_majority_threshold Browser.page Browser.expect_message
           Browser.null_message ["malta"; "capital"; "unesco"] None tt
           Pages.valletta_results Pages.valletta_results Pages.valletta_results 5
           "Valletta - Wikipedia  Valletta is the Capital city of Malta").
  - reflexivity.
  - vm_compute. discriminate.
  - reflexivity.
Defined.

(** Witness of C2: two results where three are required. *)
Lemma validateSearchResults_too_few_results_witness :
  validate_on Pages.two_results ["maltese"; "bread"] None =
  mkRun (Thrown (new_Error ("Result validation failed: "
           +:+ Browser.expect_message 2 (default 3%Z None))))
    tt Pages.two_results [(CAll (locator (resultHeaders locators)), Ok (VNumber 2))].
Proof.
  apply (validateSearchResults_too_few_results Browser.page Browser.expect_message
           Browser.null_message ["maltese"; "bread"] None tt
           Pages.two_results Pages.two_results 2).
  - reflexivity.
  - reflexivity.
Defined.

(** Counterexample to C3 as stated: on a page with two textareas named q,
    the search succeeds, the element acted on is element 0 (the first match
    of textarea[name=q], which receives the search term), while the first
    alternative of the search box that matches a visible element gives
    element 1. *)
Lemma executeSearch_fills_other_element :
  outcome (executeSearch Browser.page "ftira" tt Pages.two_textareas) = Ok tt /\
  Browser.resolve Pages.two_textareas (first (locator textarea_q)) = [0] /\
  Browser.el_value <$>
    Browser.elements (world (executeSearch Browser.page "ftira" tt Pages.two_textareas))
    = ["ftira"; EmptyString; EmptyString] /\
  first_visible_by_preference (Browser.alternatives (searchBox locators))
    Pages.two_textareas = Some 1.
Proof. vm_compute. repeat split. Qed.

(** Counterexample to C7 as stated: without network navigation fails, and
    on a blank page the search fails; both errors are of class [Error],
    neither [NavigationError] nor [SearchError]. *)
Lemma failures_are_plain_errors :
  outcome (navigateToSearchEngine Browser.page "https://www.google.com" tt
             Pages.no_network)
    = Thrown {| err_name := "Error";
                message := "Navigation failed: net::ERR_INTERNET_DISCONNECTED" |} /\
  outcome (executeSearch Browser.page "ftira" tt Pages.no_network)
    = Thrown {| err_name := "Error";
                message := "Search execution failed: Timeout exceeded." |} /\
  String.eqb "Error" "NavigationError" = false /\
  String.eqb "Error" "SearchError" = false.
Proof. vm_compute. repeat split. Qed.

(** C5, at the failing input: the keyword [__proto__] occurs in the page
    text, yet validateSearchResults records no property for it and counts
    no match. *)
Theorem proto_keyword_is_not_recorded :
  includes (toLowerCase "Object.prototype.__proto__ - JavaScript | MDN")
    (toLowerCase "__proto__") = true /\
  outcome (validate_on Pages.proto_results ["__proto__"] None) =
  Ok {| totalResults := 3; keywordMatches := ∅; isValid := false |}.
Proof. vm_compute. split; reflexivity. Qed.

(** C10, at the failing input: a list that repeats the keyword
    [__proto__] has one distinct keyword, and keywordMatches holds no
    entry. *)
Theorem repeated_proto_keyword_has_no_entry :
  remove_dups ["__proto__"; "__proto__"] = ["__proto__"] /\
  outcome (validate_on Pages.proto_results ["__proto__"; "__proto__"] None) =
  Ok {| totalResults := 3; keywordMatches := ∅; isValid := false |}.
Proof. vm_compute. split; reflexivity. Qed.

(** A list with duplicates: two of its four entries ("malta", twice) are on
    the page, one distinct keyword is recorded as matched, and the result is
    not valid. *)
Example duplicates_lower_the_count :
  outcome (validate_on Pages.valletta_results
             ["malta"; "malta"; "unesco"; "heritage"] None) =
  Ok {| totalResults := 5;
        keywordMatches := {[ "malta" := true; "unesco" := false; "heritage" := false ]};
        isValid := false |}.
Proof. vm_compute. reflexivity. Qed.

(** The search box holds an earlier query; after the search it holds the
    search term alone. *)
Example executeSearch_replaces_prior_content :
  outcome (executeSearch Browser.page "ftira" tt Pages.home) = Ok tt /\
  Browser.el_value <$>
    Browser.elements (world (executeSearch Browser.page "ftira" tt Pages.home))
    = ["ftira"; EmptyString].
Proof. vm_compute. split; reflexivity. Qed.

(** No result container appears: the input is clicked, cleared and filled
    with the term, Enter is pressed, the wait for the result container
    times out and the method throws; the input holds the term, not the
    earlier query followed by the term. *)
Example executeSearch_times_out :
  outcome (executeSearch Browser.page "ftira" tt Pages.stalled)
  = Thrown (new_Error "Search execution failed: Timeout exceeded.") /\
  last (trace (executeSearch Browser.page "ftira" tt Pages.stalled))
  = Some (wait_for_results, Thrown Browser.timeout_error) /\
  Browser.el_value <$>
    Browser.elements (world (executeSearch Browser.page "ftira" tt Pages.stalled))
    = ["ftira"].
Proof. vm_compute. repeat split. Qed.

(** The second consent candidate is shown: the first one is probed, the
    second one is probed and clicked, the others are not probed. *)
Example consent_second_candidate :
  trace (_handleConsentDialogs Browser.page tt Pages.consent_dialog) =
  [ (CIsVisible (locator (List.nth 0 consentSelectors EmptyString)) 2000, Ok (VBool false));
    (CIsVisible (locator (List.nth 1 consentSelectors EmptyString)) 2000, Ok (VBool true));
    (CClick (locator (List.nth 1 consentSelectors EmptyString)), Ok VUndefined);
    (CWaitForTimeout 1000, Ok VUndefined) ].
Proof. vm_compute. reflexivity. Qed.

(** The click on the first candidate throws: the second candidate is
    probed, clicked and settled, and the others are not probed. *)
Example consent_click_intercepted :
  _handleConsentDialogs Overlay.page tt tt =
  mkRun (Ok tt) tt tt
    [ (CIsVisible (locator (List.nth 0 consentSelectors EmptyString)) 2000, Ok (VBool true));
      (CClick (locator (List.nth 0 consentSelectors EmptyString)),
       Thrown Overlay.intercepted);
      (CIsVisible (locator (List.nth 1 consentSelectors EmptyString)) 2000, Ok (VBool true));
      (CClick (locator (List.nth 1 consentSelectors EmptyString)), Ok VUndefined);
      (CWaitForTimeout 1000, Ok VUndefined) ].
Proof. vm_compute. reflexivity. Qed.


(** The third text read throws: the entry completed before it is
    returned. *)
Example extractResultData_partial :
  extractResultData Detaching.page tt 0 =
  mkRun (Ok [ {| position := 1; title := "text"; description := "text" |} ]) tt 3
    [ (CAll (locator (resultHeaders locators)), Ok (VNumber 4));
      (CAll (locator (resultDescriptions locators)), Ok (VNumber 4));
      (CTextContent (nth (locator (resultHeaders locators)) 0), Ok (VString " text "));
      (CTextContent (nth (locator (resultDescriptions locators)) 0), Ok (VString " text "));
      (CTextContent (nth (locator (resultHeaders locators)) 1),
       Thrown Detaching.detached) ].
Proof. vm_compute. reflexivity. Qed.


Example extractResultData_on_results :
  outcome (extractResultData Browser.page tt Pages.valletta_results) =
  Ok [ {| position := 1; title := "Valletta - Wikipedia";
          description := "Valletta is the capital city of Malta." |};
       {| position := 2; title := "Visit Malta";
          description := "The official tourism site" |};
       {| position := 3; title := "Valletta, capital of Malta";
          description := EmptyString |};
       {| position := 4; title := "City guide"; description := EmptyString |};
       {| position := 5; title := "Hotels"; description := EmptyString |} ].
Proof. vm_compute. reflexivity. Qed.

(** ** Instances of the further properties *)

Abbreviation valletta_text :=
  "Valletta - Wikipedia  Valletta is the Capital city of Malta".

(** Witness of X1 on the scenario of the specification. *)
Lemma validateSearchResults_postcondition_witness :
  (default 3 None <= Z.of_nat 5)%Z /\
  length ["malta"; "capital"; "unesco"] <=
  2 * matched_count {[ "malta" := true; "capital" := true; "unesco" := false ]}.
Proof.
  destruct (validateSearchResults_postcondition Browser.page Browser.expect_message
              Browser.null_message ["malta"; "capital"; "unesco"] None tt
              Pages.valletta_results
              {| totalResults := 5;
                 keywordMatches :=
                   {[ "malta" := true; "capital" := true; "unesco" := false ]};
                 isValid := true |})
    as (Hmin & _ & Hiff).
  - vm_compute. reflexivity.
  - split; [exact Hmin | apply Hiff; reflexivity].
Defined.

(** Witness of X2. *)
Lemma validateSearchResults_no_keywords_witness :
  outcome (validate_on Pages.valletta_results [] None) =
  Ok {| totalResults := 5; keywordMatches := ∅; isValid := true |}.
Proof.
  apply (validateSearchResults_no_keywords Browser.page Browser.expect_message
           Browser.null_message None tt
           Pages.valletta_results Pages.valletta_results Pages.valletta_results
           5 valletta_text).
  - reflexivity.
  - vm_compute. discriminate.
  - reflexivity.
Defined.

(** Witness of X3. *)
Lemma validateSearchResults_null_body_witness :
  outcome (validate_on no_body_results ["malta"] None) =
  Thrown (new_Error ("Result validation failed: " +:+ Browser.null_message)).
Proof.
  apply (validateSearchResults_null_body Browser.page Browser.expect_message
           Browser.null_message ["malta"] None tt
           no_body_results no_body_results no_body_results 3).
  - reflexivity.
  - vm_compute. discriminate.
  - reflexivity.
Defined.

(** Witness of X5: two of three distinct keywords are on the page. *)
Lemma validateSearchResults_half_of_distinct_keywords_witness :
  exists v,
    outcome (validate_on Pages.valletta_results ["malta"; "capital"; "unesco"] None)
      = Ok v /\
    (isValid v = true <->
     length ["malta"; "capital"; "unesco"] <=
     2 * length (filter (fun k => includes (toLowerCase valletta_text) (toLowerCase k)
                                  = true)
                   ["malta"; "capital"; "unesco"])).
Proof.
  apply (validateSearchResults_half_of_distinct_keywords Browser.page
           Browser.expect_message Browser.null_message
           ["malta"; "capital"; "unesco"] None tt
           Pages.valletta_results Pages.valletta_results Pages.valletta_results
           5 valletta_text).
  - reflexivity.
  - vm_compute. discriminate.
  - reflexivity.
  - apply (bool_decide_unpack _). vm_compute. exact I.
  - apply (bool_decide_unpack _). vm_compute. exact I.
Defined.

(** Witness of X6: the empty keyword beside one that is not on the page. *)
Lemma validateSearchResults_empty_keyword_matches_witness :
  exists v,
    outcome (validate_on Pages.valletta_results [EmptyString; "unesco"] None) = Ok v /\
    keywordMatches v !! EmptyString = Some true.
Proof.
  apply (validateSearchResults_empty_keyword_matches Browser.page
           Browser.expect_message Browser.null_message
           [EmptyString; "unesco"] None tt
           Pages.valletta_results Pages.valletta_results Pages.valletta_results
           5 valletta_text).
  - reflexivity.
  - vm_compute. discriminate.
  - reflexivity.
  - apply (bool_decide_unpack _). vm_compute. exact I.
Defined.

(** Witness of X7: "Malta" and "MALTA". *)
Lemma validateSearchResults_case_variants_agree_witness :
  exists v b,
    outcome (validate_on Pages.valletta_results ["Malta"; "MALTA"] None) = Ok v /\
    keywordMatches v !! "Malta" = Some b /\
    keywordMatches v !! "MALTA" = Some b.
Proof.
  apply (validateSearchResults_case_variants_agree Browser.page
           Browser.expect_message Browser.null_message
           ["Malta"; "MALTA"] None tt
           Pages.valletta_results Pages.valletta_results Pages.valletta_results
           5 valletta_text "Malta" "MALTA").
  - reflexivity.
  - vm_compute. discriminate.
  - reflexivity.
  - apply (bool_decide_unpack _). vm_compute. exact I.
  - apply (bool_decide_unpack _). vm_compute. exact I.
  - discriminate.
  - discriminate.
  - reflexivity.
Defined.

(** An evidence file of the suite's setup, taken at noon. *)
Example captureEvidence_initial_state :
  captureEvidence Studio.clock Studio.camera "initial_state" None Studio.noon =
  (Ok "evidence/initial_state_2025-01-15T12-00-00-000Z.png", Studio.noon).
Proof. reflexivity. Qed.

(** A screenshot that fails: the error of the screenshot is thrown as it
    is. *)
Example captureEvidence_propagates :
  captureEvidence (Buffer := unit) (fun w : string => (w, w))
    (fun _ (w : string) => (Thrown Studio.no_path, w))
    "initial_state" (Some "evidence/screenshots") Studio.noon =
  (Thrown Studio.no_path, Studio.noon).
Proof. reflexivity. Qed.

(** Witness of X13: the same name at the same instant. *)
Lemma captureEvidence_paths_do_not_collide_witness :
  "failure_valletta" = "failure_valletta" /\
  (Studio.clock Studio.noon).1 = (Studio.clock Studio.noon).1.
Proof.
  apply (captureEvidence_paths_do_not_collide Studio.clock Studio.camera
           "failure_valletta" "failure_valletta" (Some "evidence/screenshots")
           Studio.noon Studio.noon Studio.noon Studio.noon
           "evidence/screenshots/failure_valletta_2025-01-15T12-00-00-000Z.png").
  - reflexivity.
  - reflexivity.
  - reflexivity.
  - reflexivity.
Defined.

(** Witness of X14: on the scenario of the specification the rate is two
    thirds and the result is valid; with no keyword the rate is NaN. *)
Lemma keywordSuccessRate_against_isValid_witness :
  at_least_half
    (keywordSuccessRate
       {| totalResults := 5;
          keywordMatches := {[ "malta" := true; "capital" := true; "unesco" := false ]};
          isValid := true |}
       ["malta"; "capital"; "unesco"]) = true /\
  keywordSuccessRate {| totalResults := 5; keywordMatches := ∅; isValid := true |} []
  = NaN.
Proof.
  split.
  - assert (Hv : outcome (validate_on Pages.valletta_results
                            ["malta"; "capital"; "unesco"] None) =
                 Ok {| totalResults := 5;
                       keywordMatches :=
                         {[ "malta" := true; "capital" := true; "unesco" := false ]};
                       isValid := true |})
      by (vm_compute; reflexivity).
    etransitivity; [|reflexivity].
    apply (proj1 (keywordSuccessRate_against_isValid Browser.page
                    Browser.expect_message Browser.null_message _ _ _ _ _ Hv)).
    discriminate.
  - assert (Hv : outcome (validate_on Pages.valletta_results [] None) =
                 Ok {| totalResults := 5; keywordMatches := ∅; isValid := true |})
      by (vm_compute; reflexivity).
    apply (proj2 (keywordSuccessRate_against_isValid Browser.page
                    Browser.expect_message Browser.null_message _ _ _ _ _ Hv)).
    reflexivity.
Defined.

(** Witness of X15: a page without result headers. *)
Lemma searchTermsInResults_fails_without_entries_witness :
  exists l,
    outcome (extractResultData Browser.page tt Pages.no_network) = Ok l /\
    forall term expectedKeywords,
      searchTermsInResults term expectedKeywords l = false.
Proof.
  apply (searchTermsInResults_fails_without_entries Browser.page tt Pages.no_network).
  right. right. exists Pages.no_network, 0, Pages.no_network. split; reflexivity.
Defined.

(** Witness of X16: the term "valletta  malta", with two spaces, and an
    entry that says nothing about it. *)
Lemma searchTermsInResults_trivial_on_empty_word_witness :
  searchTermsInResults "valletta  malta" ["unesco"]
    [ {| position := 1; title := "Weather"; description := "Rain" |} ] = true.
Proof.
  apply searchTermsInResults_trivial_on_empty_word.
  - left. right. right. right. exists "valletta", "malta". reflexivity.
  - discriminate.
Defined.

(** A run of one test case that passes. *)
Abbreviation run_test_case term keywords :=
  (automated_test_case Browser.page Browser.expect_message Browser.null_message
     Runner.clock Runner.camera Runner.now Runner.attach Runner.rate_message
     Runner.toBe_message 3%Z (Some "evidence/screenshots") term keywords
     [] Runner.valletta).

Example automated_test_case_valletta :
  outcome (run_test_case "valletta" ["malta"; "capital"; "unesco"]) = Ok tt /\
  locals (run_test_case "valletta" ["malta"; "capital"; "unesco"]) =
  [ PASSED "valletta" 0 4
      {[ "malta" := true; "capital" := true; "unesco" := false ]}
      "evidence/screenshots/test_results_valletta_2025-01-15T12-00-00-000Z.png"
      [ {| position := 1; title := "Valletta - Wikipedia";
           description := "Valletta is the capital city of Malta." |};
        {| position := 2; title := "Visit Malta"; description := EmptyString |};
        {| position := 3; title := "Valletta, capital of Malta";
           description := EmptyString |} ] ].
Proof. vm_compute. split; reflexivity. Qed.

(** The same page with no expected keyword: the rate is NaN, the test
    case fails and records the failure. *)
Example automated_test_case_no_keyword :
  outcome (run_test_case "valletta" []) =
  Thrown (new_Error (Runner.rate_message NaN)) /\
  locals (run_test_case "valletta" []) =
  [ FAILED "valletta" 0 (Runner.rate_message NaN) ].
Proof. vm_compute. split; reflexivity. Qed.

(** Witness of X19: the test case for "valletta" on the results page. *)
Lemma automated_test_case_passed_witness :
  exists t0 w0 w1 tr1 path w2 buffer w3 w4 v w5 tr5 l w6 tr6 t1 w7,
    Runner.now Runner.valletta = (t0, w0) /\
    executeSearch Browser.page "valletta" (@nil TestRecord) w0
    = mkRun (Ok tt) [] w1 tr1 /\
    captureEvidence Runner.clock Runner.camera
      ("test_results_" +:+ replace_whitespace "valletta")
      (Some "evidence/screenshots") w1
    = (Ok path, w2) /\
    Runner.camera {| shot_path := None; shot_fullPage := true; shot_type := None |} w2
    = (Ok buffer, w3) /\
    Runner.attach ("Search Results - " +:+ "valletta") buffer "image/png" w3
    = (Ok tt, w4) /\
    validateSearchResults Browser.page Browser.expect_message Browser.null_message
      ["malta"; "capital"; "unesco"] (Some 3%Z) (@nil TestRecord) w4
    = mkRun (Ok v) [] w5 tr5 /\
    extractResultData Browser.page (@nil TestRecord) w5 = mkRun (Ok l) [] w6 tr6 /\
    Runner.now w6 = (t1, w7) /\
    run_test_case "valletta" ["malta"; "capital"; "unesco"] =
    mkRun (Ok tt)
      ([] ++ [PASSED "valletta" (t1 - t0) (totalResults v) (keywordMatches v) path
                (take 3 l)])
      w7 (tr1 ++ tr5 ++ tr6) /\
    path = evidence_filePath (default "evidence" (Some "evidence/screenshots"))
             (evidence_fileName ("test_results_" +:+ replace_whitespace "valletta")
                (Runner.clock w1).1) /\
    (3 <= Z.of_nat (totalResults v))%Z /\
    isValid v = true /\
    ["malta"; "capital"; "unesco"] <> [] /\
    l <> [] /\
    searchTermsInResults "valletta" ["malta"; "capital"; "unesco"] l = true.
Proof.
  apply (automated_test_case_passed Browser.page Browser.expect_message
           Browser.null_message Runner.clock Runner.camera Runner.now Runner.attach
           Runner.rate_message Runner.toBe_message 3%Z (Some "evidence/screenshots")
           "valletta" ["malta"; "capital"; "unesco"] [] Runner.valletta).
  vm_compute. reflexivity.
Defined.
